(** * lib/networks.js: the registry of network descriptors

    A shallow embedding of [lib/networks.js] (bitcore-lib-zelcash) and the
    properties of its registry: the ordered list [networks], the reverse
    index [networkMaps], the operations [get], [addNetwork], [removeNetwork],
    and the testnet/regtest toggle.

    JavaScript objects are modelled by what the module can observe of them:
    - a [Network] instance is a heap cell addressed by a reference;
      identity ([===] on objects) is equality of references, and every
      place that holds the instance (the list, the index, the variables
      [livenet] and [testnet]) holds the reference;
    - [networks] is the list of references in insertion order;
    - [networkMaps] is an object literal used as a map: its own properties
      are a [gmap string ref], and its prototype is [Object.prototype]
      unless an assignment to the key [__proto__] replaced it by a network;
    - the fields of a specification have their documented types: strings
      for [name] and [alias], numbers for the prefixes, the magic number
      and the port, an array of strings for [dnsSeeds], each of them
      possibly missing;
    - numbers are the integers that a double holds exactly, and the
      property key of a number is the string [Number::toString] gives:
      the decimal notation below [1e21], the exponent notation from there
      on; buffers and arrays are values that no function of the module
      changes. *)

From stdpp Require Import base numbers option list strings gmap pretty.

Local Open Scope Z_scope.

(** ** Values *)

(** References to instances. *)
Abbreviation ref := nat.

(** Objects of the host environment that property reads can return. *)
Inductive host :=
  | ObjectPrototype                 (* Object.prototype *)
  | ObjectMember (k : string)       (* Object.prototype[k], a built-in function *)
  | NetworkPrototype                (* Network.prototype *)
  | NetworkConstructor              (* Network.prototype.constructor *)
  | NetworkToString.                (* Network.prototype.toString *)

Inductive value :=
  | VUndef
  | VNull
  | VBool (b : bool)
  | VNum (n : Z)
  | VStr (s : string)
  | VBuf (bytes : list Z)           (* a Buffer *)
  | VArr (items : list string)      (* an array of host names *)
  | VNet (r : ref)                  (* a Network instance *)
  | VHost (h : host).

(** What [get] and [removeNetwork] document as their argument
    ([string|number|Network]), and [undefined] for a missing argument. *)
Inductive key :=
  | KUndef
  | KNum (n : Z)
  | KStr (s : string)
  | KNet (r : ref).

Definition value_of_key (a : key) : value :=
  match a with
  | KUndef => VUndef
  | KNum n => VNum n
  | KStr s => VStr s
  | KNet r => VNet r
  end.

(** The [keys] argument of [get]: missing, one name, or an array of names. *)
Inductive keys_arg :=
  | NoKeys
  | OneKey (k : string)
  | ManyKeys (ks : list string).

(** [v === a] for a value read from a property and an argument. Buffers,
    arrays and host objects are never identical to an argument. *)
Definition strict_eq (v : value) (a : key) : bool :=
  match v, a with
  | VUndef, KUndef => true
  | VNum n, KNum m => bool_decide (n = m)
  | VStr s, KStr t => bool_decide (s = t)
  | VNet r, KNet q => bool_decide (r = q)
  | _, _ => false
  end.

(** ToBoolean. *)
Definition truthy (v : value) : bool :=
  match v with
  | VUndef | VNull => false
  | VBool b => b
  | VNum n => negb (bool_decide (n = 0))
  | VStr s => negb (bool_decide (s = ""))
  | VBuf _ | VArr _ | VNet _ | VHost _ => true
  end.

(** [_.isUndefined] and [_.isObject]. *)
Definition isUndefined (v : value) : bool :=
  match v with VUndef => true | _ => false end.

Definition isObject (v : value) : bool :=
  match v with
  | VBuf _ | VArr _ | VNet _ | VHost _ => true
  | _ => false
  end.

(** The names of the properties of [Object.prototype]. All but [__proto__]
    are writable data properties holding built-in functions; [__proto__] is
    an accessor with a getter and a setter. None is enumerable. *)
Definition object_prototype_names : list string :=
  [ "constructor"; "__defineGetter__"; "__defineSetter__"; "hasOwnProperty";
    "__lookupGetter__"; "__lookupSetter__"; "isPrototypeOf";
    "propertyIsEnumerable"; "toString"; "valueOf"; "toLocaleString" ].

Definition inherited_name (k : string) : bool :=
  bool_decide (k ∈ "__proto__" :: object_prototype_names).

(** ** The two parameter bundles, lines 178-196 *)

(** Modelled from the spec: [BufferUtil.integerAsBuffer] lives in
    [lib/util/buffer.js], which is not part of the sources at hand; the data
    model calls the result a 4-byte value that decodes to the integer, so it
    is the four bytes of the integer, most significant first, in a Buffer. *)
Definition integerAsBuffer (n : Z) : value :=
  VBuf [ Z.land (Z.shiftr n 24) 255; Z.land (Z.shiftr n 16) 255;
         Z.land (Z.shiftr n 8) 255; Z.land n 255 ].

Record bundle := {
  PORT : value;
  NETWORK_MAGIC : value;
  DNS_SEEDS : value
}.

Definition TESTNET : bundle := {|
  PORT := VNum 18233;
  NETWORK_MAGIC := integerAsBuffer 0xfa1af9bf;
  DNS_SEEDS := VArr ["dnsseedtestnet.zelcash.online"]
|}.

Definition REGTEST : bundle := {|
  PORT := VNum 18444;
  NETWORK_MAGIC := integerAsBuffer 0xaae83f5f;
  DNS_SEEDS := VArr []
|}.

(** [for (var key in TESTNET)]: the values in the order of the literal. *)
Definition bundle_values (b : bundle) : list value :=
  [PORT b; NETWORK_MAGIC b; DNS_SEEDS b].

(** ** Network instances *)

(** The argument [data] of [addNetwork]: every field is optional, [None] is
    a field the caller left out. *)
Record NetworkData := {
  data_name : option string;
  data_alias : option string;
  data_pubkeyhash : option Z;
  data_privatekey : option Z;
  data_scripthash : option Z;
  data_xpubkey : option Z;
  data_xprivkey : option Z;
  data_zaddr : option Z;
  data_zkey : option Z;
  data_networkMagic : option Z;
  data_port : option Z;
  data_dnsSeeds : option (list string)
}.

(** A [Network] instance. The first nine properties always exist (their
    value is [undefined] when the field is [None]); [networkMagic], [port]
    and [dnsSeeds] exist only when [Some]; [accessors] says that the three
    getters of lines 204-238 are installed on the instance; [regtestEnabled]
    is the property that [enableRegtest] and [disableRegtest] assign. *)
Record Network := {
  name : option string;
  alias : option string;
  pubkeyhash : option Z;
  privatekey : option Z;
  scripthash : option Z;
  xpubkey : option Z;
  xprivkey : option Z;
  zaddr : option Z;
  zkey : option Z;
  networkMagic : option value;
  port : option Z;
  dnsSeeds : option (list string);
  accessors : bool;
  regtestEnabled : option value
}.

Inductive getter := GetPort | GetNetworkMagic | GetDnsSeeds.

(** An own property of an instance. Every one of them is enumerable and
    none is configurable. *)
Inductive property :=
  | DataProp (v : value) (writable : bool)
  | AccessorProp (g : getter).       (* a getter and no setter *)

Definition str_value (o : option string) : value :=
  match o with Some s => VStr s | None => VUndef end.

Definition num_value (o : option Z) : value :=
  match o with Some n => VNum n | None => VUndef end.

(** Modelled from the spec: [JSUtil.defineImmutable] lives in
    [lib/util/js.js], which is not part of the sources at hand; the spec
    says that the fields it sets are frozen and that the descriptor is
    indexed under each of them, so it defines each listed field as an
    enumerable data property that is not writable. *)
Definition immutable (v : value) : property := DataProp v false.

Definition optional {A} (k : string) (f : A → property) (o : option A)
  : list (string * property) :=
  match o with Some a => [(k, f a)] | None => [] end.

(** The properties that lines 73-101 and 204-238 define, in the order of
    their definition. *)
Definition defined_properties (n : Network) : list (string * property) :=
  [ ("name", immutable (str_value (name n)));
    ("alias", immutable (str_value (alias n)));
    ("pubkeyhash", immutable (num_value (pubkeyhash n)));
    ("privatekey", immutable (num_value (privatekey n)));
    ("scripthash", immutable (num_value (scripthash n)));
    ("xpubkey", immutable (num_value (xpubkey n)));
    ("xprivkey", immutable (num_value (xprivkey n)));
    ("zaddr", immutable (num_value (zaddr n)));
    ("zkey", immutable (num_value (zkey n))) ]
  ++ optional "networkMagic" immutable (networkMagic n)
  ++ optional "port" (λ p, immutable (VNum p)) (port n)
  ++ optional "dnsSeeds" (λ l, immutable (VArr l)) (dnsSeeds n)
  ++ (if accessors n
      then [ ("port", AccessorProp GetPort);
             ("networkMagic", AccessorProp GetNetworkMagic);
             ("dnsSeeds", AccessorProp GetDnsSeeds) ]
      else []).

(** The own properties of an instance: the defined ones, then the one that
    the assignments of lines 246 and 255 create. *)
Definition own_properties (n : Network) : list (string * property) :=
  defined_properties n
  ++ optional "regtestEnabled" (λ v, DataProp v true) (regtestEnabled n).

Fixpoint assoc {A} (k : string) (l : list (string * A)) : option A :=
  match l with
  | [] => None
  | (k', a) :: l' => if decide (k = k') then Some a else assoc k l'
  end.

Definition own_property (n : Network) (k : string) : option property :=
  assoc k (own_properties n).

(** The getters of lines 204-238, given the truth value of
    [this.regtestEnabled]. *)
Definition run_getter (g : getter) (regtest : bool) : value :=
  let b := if regtest then REGTEST else TESTNET in
  match g with
  | GetPort => PORT b
  | GetNetworkMagic => NETWORK_MAGIC b
  | GetDnsSeeds => DNS_SEEDS b
  end.

(** [this.regtestEnabled] read on the instance itself: the property is
    found on the instance or nowhere. *)
Definition regtest_mode (n : Network) : bool :=
  match regtestEnabled n with Some v => truthy v | None => false end.

(** A property of [Object.prototype] read through an object whose
    prototype is [proto]. *)
Definition object_prototype_get (proto : value) (k : string) : value :=
  if decide (k = "__proto__") then proto
  else if bool_decide (k ∈ object_prototype_names) then VHost (ObjectMember k)
  else VUndef.

(** A property found on [Network.prototype] or above it. *)
Definition network_prototype_get (proto : value) (k : string) : value :=
  if decide (k = "toString") then VHost NetworkToString
  else if decide (k = "constructor") then VHost NetworkConstructor
  else object_prototype_get proto k.

(** [network[k]]: own property first, then the prototype chain. *)
Definition read_field (n : Network) (k : string) : value :=
  match own_property n k with
  | Some (DataProp v _) => v
  | Some (AccessorProp g) => run_getter g (regtest_mode n)
  | None => network_prototype_get (VHost NetworkPrototype) k
  end.

(** ** The registry *)

(** The module's two variables, with the heap of instances they point into
    and the prototype of [networkMaps] ([None] is [Object.prototype], the
    prototype of an object literal). *)
Record registry := {
  heap : list Network;
  networks : list ref;
  networkMaps : gmap string ref;
  networkMaps_proto : option ref
}.

Definition empty_registry : registry := {|
  heap := []; networks := []; networkMaps := ∅; networkMaps_proto := None
|}.

Definition with_heap (h : list Network) (st : registry) : registry :=
  {| heap := h; networks := networks st; networkMaps := networkMaps st;
     networkMaps_proto := networkMaps_proto st |}.

Definition with_networks (l : list ref) (st : registry) : registry :=
  {| heap := heap st; networks := l; networkMaps := networkMaps st;
     networkMaps_proto := networkMaps_proto st |}.

Definition with_networkMaps (m : gmap string ref) (st : registry) : registry :=
  {| heap := heap st; networks := networks st; networkMaps := m;
     networkMaps_proto := networkMaps_proto st |}.

Definition with_proto (p : option ref) (st : registry) : registry :=
  {| heap := heap st; networks := networks st; networkMaps := networkMaps st;
     networkMaps_proto := p |}.

(** The result of a call: it returns, or it throws a [TypeError]. *)
Inductive completion (A : Type) :=
  | Returns (a : A)
  | Throws.
Arguments Returns {A} a.
Arguments Throws {A}.

(** *** Property keys *)

(** [Number::toString] on an integer [x] held by a double, [2^53 <= x].
    The double has a 53-bit significand [m] and the unit [u] of its last
    place; the integers that the double [x] stands for are those closer to
    [x] than to its neighbours [x - u] (or [x - u/2] when [m] is a power of
    two) and [x + u], the half-way points included when [m] is even.
    [rounds_to x c]: the integer [c] reads back as [x]. The bounds are
    scaled by four to stay in the integers. *)
Definition rounds_to (x c : Z) : bool :=
  let u := 2 ^ (Z.log2 x - 52) in
  let m := x `div` u in
  let low := if decide (m = 2 ^ 52) then 4 * x - u else 4 * x - 2 * u in
  let high := 4 * x + 2 * u in
  if Z.even m
  then bool_decide (low ≤ 4 * c ≤ high)
  else bool_decide (low < 4 * c < high).

(** The multiple of [q] that reads back as [x], the one closest to [x] when
    there are two. *)
Definition nearest_multiple (x q : Z) : option Z :=
  let below := (x `div` q) * q in
  let above := below + q in
  match bool_decide (0 < below) && rounds_to x below, rounds_to x above with
  | true, true =>
      if decide (x - below < above - x) then Some below
      else if decide (above - x < x - below) then Some above
      else if Z.even (x `div` q) then Some below else Some above
  | true, false => Some below
  | false, true => Some above
  | false, false => None
  end.

(** The integer with the fewest significant digits that reads back as [x]:
    the digits of the result of [Number::toString], padded with zeros up to
    the magnitude of [x]. At most [j] trailing zeros are tried. *)
Fixpoint shortest (j : nat) (x : Z) : Z :=
  match j with
  | O => x
  | S j' =>
      match nearest_multiple x (10 ^ Z.of_nat j) with
      | Some c => c
      | None => shortest j' x
      end
  end.

Definition zero_digit : Ascii.ascii :=
  Ascii.Ascii false false false false true true false false.

(** The digits without their trailing zeros. *)
Fixpoint strip_zeros (s : string) : string :=
  match s with
  | EmptyString => EmptyString
  | String c r =>
      match strip_zeros r with
      | EmptyString =>
          if decide (c = zero_digit) then EmptyString else String c EmptyString
      | r' => String c r'
      end
  end.

(** The exponent notation of the digits [ds]: the first digit, the other
    significant digits after a dot if there are any, and the exponent. *)
Definition exponent_form (ds : string) : string :=
  match ds with
  | EmptyString => EmptyString
  | String d rest =>
      String d (match strip_zeros rest with
                | EmptyString => EmptyString
                | frac => "." +:+ frac
                end
                +:+ "e+" +:+ pretty (String.length rest))
  end.

(** Up to 21 digits the number is written out, beyond that it is written
    in exponent notation. *)
Definition large_number_string (x : Z) : string :=
  let ds := pretty (shortest (String.length (pretty x)) x) in
  if decide (String.length ds ≤ 21)%nat then ds else exponent_form ds.

(** [Number::toString] on an integer: below [2^53] every integer is a
    double and its shortest notation is its decimal notation. *)
Definition number_string (z : Z) : string :=
  if decide (Z.abs z < 2 ^ 53) then pretty z
  else if decide (z < 0) then "-" +:+ large_number_string (- z)
  else large_number_string z.

(** The property key of a primitive value. Only primitives are used as keys
    of [networkMaps]: the writes are guarded by [_.isObject]. *)
Definition property_key (v : value) : string :=
  match v with
  | VUndef => "undefined"
  | VNull => "null"
  | VBool b => if b then "true" else "false"
  | VNum n => number_string n
  | VStr s => s
  | VBuf _ | VArr _ | VNet _ | VHost _ => ""
  end.

(** [Network.prototype.toString], lines 17-19: [this.name]. A reference
    outside the heap stands for an instance that [addNetwork] did not
    build, which has no [name]. *)
Definition toString (st : registry) (r : ref) : value :=
  match heap st !! r with
  | Some n => read_field n "name"
  | None => VUndef
  end.

(** The key of [networkMaps[arg]]. *)
Definition argument_key (st : registry) (arg : key) : string :=
  match arg with
  | KNet r => property_key (toString st r)
  | _ => property_key (value_of_key arg)
  end.

(** *** Reading and writing [networkMaps] *)

(** [this.regtestEnabled] when a getter inherited from the network [n] runs
    with [networkMaps] as [this]. *)
Definition maps_regtest_mode (st : registry) (n : Network) : bool :=
  match networkMaps st !! "regtestEnabled" with
  | Some _ => true
  | None => regtest_mode n
  end.

(** [networkMaps[k]]: an own entry, or what the prototype chain gives. *)
Definition maps_get (st : registry) (k : string) : value :=
  match networkMaps st !! k with
  | Some r => VNet r
  | None =>
      match networkMaps_proto st with
      | None => object_prototype_get (VHost ObjectPrototype) k
      | Some p =>
          match heap st !! p with
          | Some n =>
              match own_property n k with
              | Some (DataProp v _) => v
              | Some (AccessorProp g) => run_getter g (maps_regtest_mode st n)
              | None => network_prototype_get (VNet p) k
              end
          | None => network_prototype_get (VNet p) k
          end
      end
  end.

(** An inherited property that refuses assignment: a data property that is
    not writable, or an accessor without a setter. *)
Definition inherited_read_only (st : registry) (k : string) : bool :=
  match networkMaps_proto st with
  | None => false
  | Some p =>
      match heap st !! p with
      | Some n =>
          match own_property n k with
          | Some (DataProp _ w) => negb w
          | Some (AccessorProp _) => true
          | None => false
          end
      | None => false
      end
  end.

(** [networkMaps[k] = network] in strict mode. An own entry is overwritten;
    otherwise an inherited read-only property makes the assignment throw,
    the key [__proto__] reaches the setter of [Object.prototype], which
    replaces the prototype, and any other key becomes an own entry. *)
Definition maps_put (k : string) (network : ref) (st : registry)
  : completion unit * registry :=
  match networkMaps st !! k with
  | Some _ => (Returns (), with_networkMaps (<[k := network]> (networkMaps st)) st)
  | None =>
      if inherited_read_only st k then (Throws, st)
      else if decide (k = "__proto__")
      then (Returns (), with_proto (Some network) st)
      else (Returns (), with_networkMaps (<[k := network]> (networkMaps st)) st)
  end.

(** *** [get], lines 29-48 *)

(** [~networks.indexOf(arg)] *)
Definition registered (st : registry) (arg : key) : bool :=
  match arg with
  | KNet r => bool_decide (r ∈ networks st)
  | _ => false
  end.

(** [if (keys)] and [if (!_.isArray(keys)) keys = [keys]] *)
Definition keys_given (keys : keys_arg) : option (list string) :=
  match keys with
  | NoKeys => None
  | OneKey k => if decide (k = "") then None else Some [k]
  | ManyKeys ks => Some ks
  end.

(** [networks[index][key]] *)
Definition read (st : registry) (r : ref) (k : string) : value :=
  match heap st !! r with
  | Some n => read_field n k
  | None => network_prototype_get (VHost NetworkPrototype) k
  end.

(** [_.any(keys, containsArg)] *)
Definition containsArg (st : registry) (arg : key) (r : ref) (k : string) : bool :=
  strict_eq (read st r k) arg.

(** [for (var index in networks)], lines 40-45 *)
Fixpoint scan (st : registry) (arg : key) (ks : list string) (l : list ref) : value :=
  match l with
  | [] => VUndef
  | r :: l' => if existsb (containsArg st arg r) ks then VNet r else scan st arg ks l'
  end.

Definition get (st : registry) (arg : key) (keys : keys_arg) : value :=
  if registered st arg then value_of_key arg
  else match keys_given keys with
       | Some ks => scan st arg ks (networks st)
       | None => maps_get st (argument_key st arg)
       end.

(** *** [addNetwork], lines 69-112 *)

(** [if (data.networkMagic)], [if (data.port)], [if (data.dnsSeeds)] *)
Definition if_truthy {A} (inj : A → value) (o : option A) : option A :=
  match o with
  | Some a => if truthy (inj a) then Some a else None
  | None => None
  end.

(** The instance that lines 71-101 build. *)
Definition new_network (data : NetworkData) : Network := {|
  name := data_name data;
  alias := data_alias data;
  pubkeyhash := data_pubkeyhash data;
  privatekey := data_privatekey data;
  scripthash := data_scripthash data;
  xpubkey := data_xpubkey data;
  xprivkey := data_xprivkey data;
  zaddr := data_zaddr data;
  zkey := data_zkey data;
  networkMagic := integerAsBuffer <$> if_truthy VNum (data_networkMagic data);
  port := if_truthy VNum (data_port data);
  dnsSeeds := if_truthy VArr (data_dnsSeeds data);
  accessors := false;
  regtestEnabled := None
|}.

(** The values that [_.each(network, ...)] visits: those of the own
    enumerable properties, in order. *)
Definition property_value (n : Network) (p : property) : value :=
  match p with
  | DataProp v _ => v
  | AccessorProp g => run_getter g (regtest_mode n)
  end.

Definition own_values (n : Network) : list value :=
  (λ kp, property_value n kp.2) <$> own_properties n.

(** Lines 102-106; a throwing assignment ends the loop. *)
Fixpoint index_each (network : ref) (vs : list value) (st : registry)
  : completion unit * registry :=
  match vs with
  | [] => (Returns (), st)
  | v :: vs' =>
      if negb (isUndefined v) && negb (isObject v)
      then match maps_put (property_key v) network st with
           | (Returns _, st') => index_each network vs' st'
           | (Throws, st') => (Throws, st')
           end
      else index_each network vs' st
  end.

Definition addNetwork (st : registry) (data : NetworkData)
  : completion ref * registry :=
  let network := length (heap st) in
  let st1 := with_heap (heap st ++ [new_network data]) st in
  match index_each network (own_values (new_network data)) st1 with
  | (Returns _, st2) => (Returns network, with_networks (networks st2 ++ [network]) st2)
  | (Throws, st2) => (Throws, st2)
  end.

(** *** [removeNetwork], lines 120-131 *)

Definition is_network (arg : key) (r : ref) : bool :=
  match arg with KNet q => bool_decide (r = q) | _ => false end.

(** Lines 121-125: [for (var i = 0; i < networks.length; i++)] with
    [networks.splice(i, 1)] where [networks[i] === network]. [fuel] bounds
    the number of rounds; the length of the list is enough for the loop to
    reach its end ([splice_loop_from]). *)
Fixpoint splice_loop (fuel : nat) (arg : key) (i : nat) (l : list ref) : list ref :=
  match fuel with
  | O => l
  | S fuel' =>
      match l !! i with
      | None => l
      | Some r =>
          splice_loop fuel' arg (S i) (if is_network arg r then delete i l else l)
      end
  end.

(** The same loop with the rounds counted: [None] when [fuel] rounds did
    not reach the end of the list, else the list that is left when
    [i < networks.length] fails. *)
Fixpoint splice_run (fuel : nat) (arg : key) (i : nat) (l : list ref)
  : option (list ref) :=
  match fuel with
  | O => None
  | S fuel' =>
      match l !! i with
      | None => Some l
      | Some r =>
          splice_run fuel' arg (S i) (if is_network arg r then delete i l else l)
      end
  end.

(** The same loop by recursion on the list ([splice_each_loop]). After
    [splice(i, 1)] the element that followed the removed one sits at index
    [i], and [i++] steps over it unexamined. *)
Fixpoint splice_each (arg : key) (l : list ref) : list ref :=
  match l with
  | [] => []
  | r :: l' =>
      if is_network arg r
      then match l' with
           | [] => []
           | r' :: l'' => r' :: splice_each arg l''
           end
      else r :: splice_each arg l'
  end.

(** Lines 126-130: only own entries can be deleted, and every own entry
    holds an instance. *)
Definition delete_each (arg : key) (m : gmap string ref) : gmap string ref :=
  filter (λ kv, is_network arg kv.2 = false) m.

Definition removeNetwork (st : registry) (arg : key) : registry :=
  with_networkMaps (delete_each arg (networkMaps st))
    (with_networks (splice_loop (length (networks st)) arg 0 (networks st)) st).

(** *** The toggle, lines 245-256 *)

Definition with_regtestEnabled (o : option value) (n : Network) : Network := {|
  name := name n; alias := alias n; pubkeyhash := pubkeyhash n;
  privatekey := privatekey n; scripthash := scripthash n;
  xpubkey := xpubkey n; xprivkey := xprivkey n; zaddr := zaddr n;
  zkey := zkey n; networkMagic := networkMagic n; port := port n;
  dnsSeeds := dnsSeeds n; accessors := accessors n;
  regtestEnabled := o
|}.

(** [network.regtestEnabled = v] *)
Definition set_regtestEnabled (v : value) (n : Network) : Network :=
  with_regtestEnabled (Some v) n.

(** [Object.defineProperty(testnet, ...)], lines 204-238. *)
Definition define_accessors (n : Network) : Network := {|
  name := name n; alias := alias n; pubkeyhash := pubkeyhash n;
  privatekey := privatekey n; scripthash := scripthash n;
  xpubkey := xpubkey n; xprivkey := xprivkey n; zaddr := zaddr n;
  zkey := zkey n; networkMagic := networkMagic n; port := port n;
  dnsSeeds := dnsSeeds n; accessors := true;
  regtestEnabled := regtestEnabled n
|}.

(** ** Loading the module, lines 133-238 *)

Definition livenet_data : NetworkData := {|
  data_name := Some "livenet";
  data_alias := Some "mainnet";
  data_pubkeyhash := Some 0x1cb8;
  data_privatekey := Some 0x80;
  data_scripthash := Some 0x1cbd;
  data_xpubkey := Some 0x0488b21e;
  data_xprivkey := Some 0x0488ade4;
  data_zaddr := Some 0x169a;
  data_zkey := Some 0xab36;
  data_networkMagic := Some 0x24e92764;
  data_port := Some 8233;
  data_dnsSeeds := Some ["bzcseed.raptorpool.org"]
|}.

Definition testnet_data : NetworkData := {|
  data_name := Some "testnet";
  data_alias := Some "regtest";
  data_pubkeyhash := Some 0x1d25;
  data_privatekey := Some 0xef;
  data_scripthash := Some 0x1cba;
  data_xpubkey := Some 0x043587cf;
  data_xprivkey := Some 0x04358394;
  data_zaddr := Some 0x16b6;
  data_zkey := Some 0xac08;
  data_networkMagic := None;
  data_port := None;
  data_dnsSeeds := None
|}.

Definition as_ref (v : value) : ref :=
  match v with VNet r => r | _ => 0%nat end.

Definition registry_after_livenet : registry :=
  (addNetwork empty_registry livenet_data).2.

(** [var livenet = get('livenet')] *)
Definition livenet : ref :=
  Eval vm_compute in as_ref (get registry_after_livenet (KStr "livenet") NoKeys).

Definition registry_after_testnet : registry :=
  (addNetwork registry_after_livenet testnet_data).2.

(** [var testnet = get('testnet')] *)
Definition testnet : ref :=
  Eval vm_compute in as_ref (get registry_after_testnet (KStr "testnet") NoKeys).

(** Lines 186-190 and 198-202: [networkMaps[B[key]] = testnet] for the
    values of a bundle that are not objects. *)
Fixpoint index_bundle (vs : list value) (st : registry) : completion unit * registry :=
  match vs with
  | [] => (Returns (), st)
  | v :: vs' =>
      if negb (isObject v)
      then match maps_put (property_key v) testnet st with
           | (Returns _, st') => index_bundle vs' st'
           | (Throws, st') => (Throws, st')
           end
      else index_bundle vs' st
  end.

(** The registry once the module is loaded. *)
Definition loaded : registry :=
  let st := (index_bundle (bundle_values TESTNET) registry_after_testnet).2 in
  let st := (index_bundle (bundle_values REGTEST) st).2 in
  with_heap (alter define_accessors testnet (heap st)) st.

(** [testnet.regtestEnabled = true] and [= false] *)
Definition enableRegtest (st : registry) : registry :=
  with_heap (alter (set_regtestEnabled (VBool true)) testnet (heap st)) st.

Definition disableRegtest (st : registry) : registry :=
  with_heap (alter (set_regtestEnabled (VBool false)) testnet (heap st)) st.

(** ** Sequences of calls *)

(** A call of one of the exported functions. *)
Inductive call :=
  | Add (data : NetworkData)
  | Remove (arg : key)
  | Get (arg : key) (keys : keys_arg)
  | EnableRegtest
  | DisableRegtest.

(** The registry after a call, whether it returned or threw. *)
Definition after (st : registry) (c : call) : registry :=
  match c with
  | Add data => (addNetwork st data).2
  | Remove arg => removeNetwork st arg
  | Get _ _ => st
  | EnableRegtest => enableRegtest st
  | DisableRegtest => disableRegtest st
  end.

Definition after_all (st : registry) (cs : list call) : registry :=
  foldl after st cs.

(** [d.k = v] from outside the module, on the instance [n]. An own data
    property takes the value if it is writable, and of the own properties
    only [regtestEnabled] is; any other own property refuses the assignment
    (a [TypeError] in strict code, nothing at all otherwise). For a name
    that the instance does not own the prototypes decide. [__proto__] is
    the accessor of [Object.prototype], and its setter is called. Every
    other property of [Network.prototype] and of [Object.prototype] is a
    writable data property, so for such a name, as for a name found
    nowhere, the assignment creates an own property of the instance,
    writable, enumerable and configurable. The instance is extensible: the
    module defines properties on it after line 73 (lines 86-98 and
    204-238), and lines 246 and 255 create [regtestEnabled] in this way. *)
Inductive assignment :=
  | Refused
  | Stored (n : Network)               (* [regtestEnabled] holds the value *)
  | Created (k : string) (v : value)   (* a new own property [k] holds [v] *)
  | PrototypeSetter (v : value).       (* the setter of [__proto__] ran on [v] *)

Definition assign (n : Network) (k : string) (v : value) : assignment :=
  match own_property n k with
  | Some (DataProp _ true) => Stored (set_regtestEnabled v n)
  | Some (DataProp _ false) => Refused
  | Some (AccessorProp _) => Refused
  | None =>
      if decide (k = "__proto__") then PrototypeSetter v
      else if decide (k = "regtestEnabled") then Stored (set_regtestEnabled v n)
      else Created k v
  end.

(** The own properties of the instance once [d.k = v] has run. *)
Definition assigned_properties (n : Network) (k : string) (v : value)
  : list (string * property) :=
  match assign n k v with
  | Refused | PrototypeSetter _ => own_properties n
  | Stored n' => own_properties n'
  | Created k' v' => own_properties n ++ [(k', DataProp v' true)]
  end.

(** ** Predicates on registries and sample specifications *)

(** The names an instance can own. *)
Definition network_property_names : list string :=
  [ "name"; "alias"; "pubkeyhash"; "privatekey"; "scripthash"; "xpubkey";
    "xprivkey"; "zaddr"; "zkey"; "networkMagic"; "port"; "dnsSeeds";
    "regtestEnabled" ].

(** The string starts like the decimal notation of an integer: with a
    digit or a minus sign. *)
Definition decimal_head (s : string) : bool :=
  match s with
  | EmptyString => false
  | String c _ =>
      bool_decide (c ∈ String.list_ascii_of_string "0123456789-")
  end.

(** The guard of line 103. *)
Definition indexable (v : value) : bool :=
  negb (isUndefined v) && negb (isObject v).

(** The list holds instances of the heap. *)
Definition valid (st : registry) : Prop :=
  ∀ r, r ∈ networks st → (r < length (heap st))%nat.

(** Only [testnet] has the getters. *)
Definition accessors_on_testnet (st : registry) : Prop :=
  ∀ r n, heap st !! r = Some n → accessors n = true → r = testnet.

(** The cell of [testnet] after any calls: the instance built at load
    time, with some value of [regtestEnabled]. *)
Definition testnet_instance : Network := define_accessors (new_network testnet_data).

(** A call of [enableRegtest] or of [disableRegtest]. *)
Definition toggle (b : bool) : call := if b then EnableRegtest else DisableRegtest.

(** Every entry of the index leads to a descriptor of the list. *)
Definition index_listed (st : registry) : Prop :=
  ∀ k r, networkMaps st !! k = Some r → r ∈ networks st.

(** The call returns: only [addNetwork] can throw. *)
Definition returned (st : registry) (c : call) : Prop :=
  match c with
  | Add data => ∃ d, (addNetwork st data).1 = Returns d
  | _ => True
  end.

(** Each call of the sequence returns. *)
Fixpoint all_returned (st : registry) (cs : list call) : Prop :=
  match cs with
  | [] => True
  | c :: cs' => returned st c ∧ all_returned (after st c) cs'
  end.

(** [v] is the first descriptor of the list whose field [k] is [z]. *)
Definition first_with (st : registry) (k : string) (z : Z) (v : value) : Prop :=
  ∃ l1 r l2,
    networks st = l1 ++ r :: l2
    ∧ v = VNet r
    ∧ read st r k = VNum z
    ∧ ∀ x, x ∈ l1 → read st x k ≠ VNum z.

(** A specification that gives the port 0 and an empty sequence of seeds. *)
Definition port_zero_data : NetworkData := {|
  data_name := Some "zero";
  data_alias := Some "nil";
  data_pubkeyhash := Some 1;
  data_privatekey := Some 2;
  data_scripthash := Some 3;
  data_xpubkey := Some 4;
  data_xprivkey := Some 5;
  data_zaddr := Some 6;
  data_zkey := Some 7;
  data_networkMagic := Some 0;
  data_port := Some 0;
  data_dnsSeeds := Some []
|}.

(** A specification whose alias is [__proto__]: indexing it replaces the
    prototype of [networkMaps] by the new descriptor. *)
Definition proto_alias_data : NetworkData := {|
  data_name := Some "p";
  data_alias := Some "__proto__";
  data_pubkeyhash := Some 11;
  data_privatekey := Some 12;
  data_scripthash := Some 13;
  data_xpubkey := Some 14;
  data_xprivkey := Some 15;
  data_zaddr := Some 16;
  data_zkey := Some 17;
  data_networkMagic := None;
  data_port := None;
  data_dnsSeeds := None
|}.

(** A specification whose alias is the name of a field of a descriptor. *)
Definition name_alias_data : NetworkData := {|
  data_name := Some "x";
  data_alias := Some "name";
  data_pubkeyhash := Some 21;
  data_privatekey := Some 22;
  data_scripthash := Some 23;
  data_xpubkey := Some 24;
  data_xprivkey := Some 25;
  data_zaddr := Some 26;
  data_zkey := Some 27;
  data_networkMagic := None;
  data_port := None;
  data_dnsSeeds := None
|}.

(** A specification named like a property of [Object.prototype]. *)
Definition constructor_data : NetworkData := {|
  data_name := Some "constructor";
  data_alias := Some "ctor";
  data_pubkeyhash := Some 31;
  data_privatekey := Some 32;
  data_scripthash := Some 33;
  data_xpubkey := Some 34;
  data_xprivkey := Some 35;
  data_zaddr := Some 36;
  data_zkey := Some 37;
  data_networkMagic := None;
  data_port := None;
  data_dnsSeeds := None
|}.

(** The pubkeyhash of the first is the scripthash of the second. *)
Definition first_data : NetworkData := {|
  data_name := Some "first";
  data_alias := Some "one";
  data_pubkeyhash := Some 77;
  data_privatekey := Some 42;
  data_scripthash := Some 43;
  data_xpubkey := Some 44;
  data_xprivkey := Some 45;
  data_zaddr := Some 46;
  data_zkey := Some 47;
  data_networkMagic := None;
  data_port := None;
  data_dnsSeeds := None
|}.

(** The second of the two. *)
Definition second_data : NetworkData := {|
  data_name := Some "second";
  data_alias := Some "two";
  data_pubkeyhash := Some 51;
  data_privatekey := Some 52;
  data_scripthash := Some 77;
  data_xpubkey := Some 54;
  data_xprivkey := Some 55;
  data_zaddr := Some 56;
  data_zkey := Some 57;
  data_networkMagic := None;
  data_port := None;
  data_dnsSeeds := None
|}.

(** ** Further predicates and sample specifications *)

(** The keys under which lines 102-106 index the descriptor built from a
    specification: those of its values that are neither [undefined] nor
    objects, in the order of the fields. *)
Definition index_keys (data : NetworkData) : list string :=
  property_key <$> filter (λ v, indexable v = true) (own_values (new_network data)).

(** Every reference of the registry points into the heap, and the list
    holds none twice. *)
Definition well_formed (st : registry) : Prop :=
  NoDup (networks st)
  ∧ (∀ r, r ∈ networks st → (r < length (heap st))%nat)
  ∧ (∀ k r, networkMaps st !! k = Some r → (r < length (heap st))%nat)
  ∧ (∀ p, networkMaps_proto st = Some p → (p < length (heap st))%nat).

(** The instance holds its [networkMagic], if it has one, as a buffer. *)
Definition magic_buffer (n : Network) : Prop :=
  match networkMagic n with
  | None | Some (VBuf _) => True
  | Some _ => False
  end.

(** A specification named like a field of a descriptor. *)
Definition field_name_data : NetworkData := {|
  data_name := Some "pubkeyhash";
  data_alias := Some "field";
  data_pubkeyhash := Some 61;
  data_privatekey := Some 62;
  data_scripthash := Some 63;
  data_xpubkey := Some 64;
  data_xprivkey := Some 65;
  data_zaddr := Some 66;
  data_zkey := Some 67;
  data_networkMagic := None;
  data_port := None;
  data_dnsSeeds := None
|}.

(** A specification whose pubkeyhash is [1e21]. *)
Definition large_prefix_data : NetworkData := {|
  data_name := Some "large";
  data_alias := Some "big";
  data_pubkeyhash := Some (10 ^ 21);
  data_privatekey := Some 72;
  data_scripthash := Some 73;
  data_xpubkey := Some 74;
  data_xprivkey := Some 75;
  data_zaddr := Some 76;
  data_zkey := Some 79;
  data_networkMagic := None;
  data_port := None;
  data_dnsSeeds := None
|}.

(** * Properties *)

(** Membership in a list that is written out. *)
Ltac elem_of_literal :=
  solve [repeat first [apply list_elem_of_here | apply list_elem_of_further]].

(** ** What each call does to the heap and to the list *)

Section Frames.

Implicit Types (st : registry) (n : Network) (r : ref).

Lemma with_regtestEnabled_same n : with_regtestEnabled (regtestEnabled n) n = n.
Proof. by destruct n. Qed.

Lemma with_regtestEnabled_twice o o' n :
  with_regtestEnabled o (with_regtestEnabled o' n) = with_regtestEnabled o n.
Proof. done. Qed.

Lemma maps_put_frame k r st :
  heap (maps_put k r st).2 = heap st ∧ networks (maps_put k r st).2 = networks st.
Proof.
  unfold maps_put. destruct (networkMaps st !! k); [done|].
  destruct (inherited_read_only st k); [done|]. by case_decide.
Qed.

Lemma index_each_frame r vs st :
  heap (index_each r vs st).2 = heap st
  ∧ networks (index_each r vs st).2 = networks st.
Proof.
  revert st. induction vs as [|v vs IH]; intros st; [done|]. simpl.
  destruct (negb (isUndefined v) && negb (isObject v)); [|apply IH].
  destruct (maps_put_frame (property_key v) r st) as [Hh Hn].
  destruct (maps_put (property_key v) r st) as [[[]|] st']; simpl in *.
  - destruct (IH st') as [-> ->]. done.
  - done.
Qed.

Lemma index_bundle_frame vs st :
  heap (index_bundle vs st).2 = heap st
  ∧ networks (index_bundle vs st).2 = networks st.
Proof.
  revert st. induction vs as [|v vs IH]; intros st; [done|]. simpl.
  destruct (negb (isObject v)); [|apply IH].
  destruct (maps_put_frame (property_key v) testnet st) as [Hh Hn].
  destruct (maps_put (property_key v) testnet st) as [[[]|] st']; simpl in *.
  - destruct (IH st') as [-> ->]. done.
  - done.
Qed.

(** [addNetwork] allocates exactly one instance, the one it builds. *)
Lemma addNetwork_heap st data :
  heap (addNetwork st data).2 = heap st ++ [new_network data].
Proof.
  unfold addNetwork.
  pose proof (index_each_frame (length (heap st)) (own_values (new_network data))
                (with_heap (heap st ++ [new_network data]) st)) as [Hh _].
  destruct (index_each _ _ _) as [[[]|] st2]; simpl in *; done.
Qed.

Lemma addNetwork_networks st data :
  networks (addNetwork st data).2
  = match (addNetwork st data).1 with
    | Returns d => networks st ++ [d]
    | Throws => networks st
    end.
Proof.
  unfold addNetwork.
  pose proof (index_each_frame (length (heap st)) (own_values (new_network data))
                (with_heap (heap st ++ [new_network data]) st)) as [_ Hn].
  destruct (index_each _ _ _) as [[[]|] st2]; simpl in *; by rewrite Hn.
Qed.

Lemma addNetwork_returns_fresh st data d :
  (addNetwork st data).1 = Returns d → d = length (heap st).
Proof.
  unfold addNetwork. destruct (index_each _ _ _) as [[[]|] st2]; simpl; congruence.
Qed.

(** No call changes an instance in anything but [regtestEnabled], and
    only that of [testnet]. *)
Lemma after_frame st c r n :
  heap st !! r = Some n →
  ∃ o, heap (after st c) !! r = Some (with_regtestEnabled o n)
       ∧ (r ≠ testnet → o = regtestEnabled n).
Proof.
  intros Hr.
  assert (Hsame : ∃ o, Some n = Some (with_regtestEnabled o n)
                       ∧ (r ≠ testnet → o = regtestEnabled n)).
  { exists (regtestEnabled n). by rewrite with_regtestEnabled_same. }
  assert (Halter : ∀ v, ∃ o,
    alter (set_regtestEnabled v) testnet (heap st) !! r
      = Some (with_regtestEnabled o n) ∧ (r ≠ testnet → o = regtestEnabled n)).
  { intros v. destruct (decide (r = testnet)) as [->|Hne].
    - exists (Some v). rewrite list_lookup_alter_eq. rewrite Hr. done.
    - exists (regtestEnabled n).
      rewrite list_lookup_alter_ne by done.
      by rewrite Hr, with_regtestEnabled_same. }
  destruct c as [data|arg|arg keys| |]; simpl.
  - rewrite addNetwork_heap, lookup_app_l by (by eapply lookup_lt_Some).
    by rewrite Hr.
  - by rewrite Hr.
  - by rewrite Hr.
  - apply Halter.
  - apply Halter.
Qed.

Lemma after_all_frame cs : ∀ st r n,
  heap st !! r = Some n →
  ∃ o, heap (after_all st cs) !! r = Some (with_regtestEnabled o n)
       ∧ (r ≠ testnet → o = regtestEnabled n).
Proof.
  induction cs as [|c cs IH]; intros st r n Hr; simpl.
  - exists (regtestEnabled n). by rewrite with_regtestEnabled_same.
  - destruct (after_frame st c r n Hr) as (o & Ho & Hne).
    destruct (IH _ _ _ Ho) as (o' & Ho' & Hne').
    exists o'. split; [done|]. intros H. rewrite (Hne' H). simpl. auto.
Qed.

End Frames.

(** ** Own properties *)

Section Properties.

Implicit Types (n : Network) (k : string).

Lemma assoc_app {A} k (l1 l2 : list (string * A)) :
  assoc k (l1 ++ l2) = match assoc k l1 with Some a => Some a | None => assoc k l2 end.
Proof.
  induction l1 as [|[k' a] l1 IH]; simpl; [done|]. by case_decide.
Qed.

Lemma assoc_Some_elem {A} k (a : A) (l : list (string * A)) :
  assoc k l = Some a → (k, a) ∈ l.
Proof.
  induction l as [|[k' a'] l IH]; simpl; [done|].
  case_decide; intros Heq; simplify_eq; [left | right; auto].
Qed.

Lemma assoc_None_elem {A} k (l : list (string * A)) :
  k ∉ l.*1 → assoc k l = None.
Proof.
  induction l as [|[k' a'] l IH]; simpl; [done|].
  intros Hk. rewrite not_elem_of_cons in Hk. destruct Hk as [Hne Hk].
  case_decide; [done | by apply IH].
Qed.

Lemma defined_properties_spec n :
  Forall (λ kp, kp.1 ∈ network_property_names ∧ kp.1 ≠ "regtestEnabled"
                ∧ match kp.2 with
                  | DataProp _ w => w = false
                  | AccessorProp _ =>
                      accessors n = true
                      ∧ kp.1 ∈ ["port"; "networkMagic"; "dnsSeeds"]
                  end)
         (defined_properties n).
Proof.
  unfold defined_properties, network_property_names.
  destruct (networkMagic n), (port n), (dnsSeeds n), (accessors n); simpl;
    repeat (apply Forall_cons; split;
            [split_and!; [elem_of_literal | done
                         | first [done | split; [done | elem_of_literal]]]|]);
    apply Forall_nil_2.
Qed.

Lemma own_property_defined n k :
  k ≠ "regtestEnabled" → own_property n k = assoc k (defined_properties n).
Proof.
  intros Hk. unfold own_property, own_properties. rewrite assoc_app.
  destruct (assoc k (defined_properties n)); [done|].
  destruct (regtestEnabled n); simpl; [|done]. by case_decide.
Qed.

Lemma own_property_name n k p :
  own_property n k = Some p → k ∈ network_property_names.
Proof.
  unfold own_property, own_properties. rewrite assoc_app.
  destruct (assoc k (defined_properties n)) as [p'|] eqn:Hd.
  - intros _. apply assoc_Some_elem in Hd.
    pose proof (defined_properties_spec n) as HF.
    rewrite Forall_forall in HF. by destruct (HF _ Hd) as (? & _).
  - destruct (regtestEnabled n); simpl; [|done].
    case_decide; [|done]. intros _. subst. unfold network_property_names.
    elem_of_literal.
Qed.

(** Only [regtestEnabled] is writable. *)
Lemma own_property_writable n k v :
  own_property n k = Some (DataProp v true) → k = "regtestEnabled".
Proof.
  intros H. destruct (decide (k = "regtestEnabled")) as [|Hk]; [done|].
  rewrite own_property_defined in H by done.
  apply assoc_Some_elem in H.
  pose proof (defined_properties_spec n) as HF.
  rewrite Forall_forall in HF. by destruct (HF _ H) as (_ & _ & ?).
Qed.

(** Only [port], [networkMagic] and [dnsSeeds] can be accessors, and only
    on an instance that has the getters. *)
Lemma own_property_accessor n k g :
  own_property n k = Some (AccessorProp g) →
  accessors n = true ∧ k ∈ ["port"; "networkMagic"; "dnsSeeds"].
Proof.
  intros H. destruct (decide (k = "regtestEnabled")) as [->|Hk].
  - unfold own_property, own_properties in H. rewrite assoc_app in H.
    destruct (assoc _ (defined_properties n)) as [p|] eqn:Hd.
    + apply assoc_Some_elem in Hd.
      pose proof (defined_properties_spec n) as HF.
      rewrite Forall_forall in HF. by destruct (HF _ Hd) as (_ & ? & _).
    + destruct (regtestEnabled n); simpl in H; done.
  - rewrite own_property_defined in H by done.
    apply assoc_Some_elem in H.
    pose proof (defined_properties_spec n) as HF.
    rewrite Forall_forall in HF. by destruct (HF _ H) as (_ & _ & ?).
Qed.

(** A stored field is read the same whatever [regtestEnabled] holds. *)
Lemma read_field_with_regtestEnabled o n k :
  k ≠ "regtestEnabled" →
  (accessors n = false ∨ k ∉ ["port"; "networkMagic"; "dnsSeeds"]) →
  read_field (with_regtestEnabled o n) k = read_field n k.
Proof.
  intros Hk Hacc. unfold read_field.
  rewrite !own_property_defined by done.
  change (defined_properties (with_regtestEnabled o n)) with (defined_properties n).
  destruct (assoc k (defined_properties n)) as [[v w|g]|] eqn:Hd; [done| |done].
  rewrite <- own_property_defined in Hd by done.
  apply own_property_accessor in Hd as [Ha Hin]. destruct Hacc; [congruence | done].
Qed.

(** An accessor field is read from the bundle that [regtestEnabled]
    selects. *)
Lemma read_field_accessor n k g :
  own_property n k = Some (AccessorProp g) →
  read_field n k = run_getter g (regtest_mode n).
Proof. unfold read_field. by intros ->. Qed.

End Properties.

(** ** Keys of numbers

    The key of a number starts with a digit or a minus sign, so it is never
    the name of a property of an instance or of a prototype. *)

Section Decimal.

Lemma pretty_N_char_head x s : decimal_head (String (pretty_N_char x) s) = true.
Proof. unfold pretty_N_char. by repeat case_match. Qed.

Lemma pretty_N_go_head x : ∀ s,
  decimal_head s = true → decimal_head (pretty_N_go x s) = true.
Proof.
  induction (N.lt_wf_0 x) as [x _ IH]. intros s Hs.
  destruct (decide (x = 0)%N) as [->|Hx].
  - by rewrite pretty_N_go_0.
  - rewrite pretty_N_go_step by lia. apply IH.
    + apply N.div_lt; lia.
    + apply pretty_N_char_head.
Qed.

Lemma pretty_N_head (x : N) : decimal_head (pretty x) = true.
Proof.
  unfold pretty, pretty_N. case_decide; [done|].
  rewrite pretty_N_go_step by lia. apply pretty_N_go_head, pretty_N_char_head.
Qed.

Lemma pretty_Z_head (z : Z) : decimal_head (pretty z) = true.
Proof.
  destruct z as [|p|p]; [done| |done].
  apply (pretty_N_head (N.pos p)).
Qed.

(** The key of a number starts like a decimal notation in both notations. *)
Lemma exponent_form_head (ds : string) :
  decimal_head ds = true → decimal_head (exponent_form ds) = true.
Proof. by destruct ds. Qed.

Lemma large_number_string_head (x : Z) : decimal_head (large_number_string x) = true.
Proof.
  unfold large_number_string. cbv zeta. case_decide.
  - apply pretty_Z_head.
  - apply exponent_form_head, pretty_Z_head.
Qed.

Lemma number_string_head (z : Z) : decimal_head (number_string z) = true.
Proof.
  unfold number_string. repeat case_decide.
  - apply pretty_Z_head.
  - done.
  - apply large_number_string_head.
Qed.

(** What [String] gives on some numbers: all the digits up to 21 of them,
    the shortest digits that read back as the same double, and the
    exponent notation from [1e21] on. *)
Lemma number_string_samples :
  number_string 8233 = "8233"
  ∧ number_string (-128) = "-128"
  ∧ number_string (2 ^ 53) = "9007199254740992"
  ∧ number_string (2 ^ 64) = "18446744073709552000"
  ∧ number_string (10 ^ 21 - 2 ^ 17) = "999999999999999900000"
  ∧ number_string (10 ^ 21) = "1e+21"
  ∧ number_string (- (15 * 10 ^ 20)) = "-1.5e+21"
  ∧ number_string (2 ^ 70) = "1.1805916207174113e+21".
Proof. split_and!; by vm_compute. Qed.

(** Below [2^53] the key is the decimal notation. *)
Lemma number_string_small (z : Z) :
  Z.abs z < 2 ^ 53 → number_string z = pretty z.
Proof. intros Hz. unfold number_string. by rewrite decide_True. Qed.

Lemma number_string_not_in (z : Z) (l : list string) :
  forallb (λ k, negb (decimal_head k)) l = true → number_string z ∉ l.
Proof.
  intros Hl Hin. rewrite forallb_forall in Hl.
  apply list_elem_of_In, Hl in Hin.
  by rewrite number_string_head in Hin.
Qed.

Lemma number_string_neq (z : Z) (k : string) :
  decimal_head k = false → number_string z ≠ k.
Proof.
  intros Hk H. pose proof (number_string_head z) as Hz. rewrite H in Hz. congruence.
Qed.

Lemma number_string_not_proto (z : Z) : number_string z ≠ "__proto__".
Proof. by apply number_string_neq. Qed.

Lemma number_string_not_inherited (z : Z) : inherited_name (number_string z) = false.
Proof.
  unfold inherited_name. apply bool_decide_eq_false, number_string_not_in. done.
Qed.

Lemma number_string_not_owned (z : Z) n : own_property n (number_string z) = None.
Proof.
  destruct (own_property n (number_string z)) as [p|] eqn:Hp; [|done].
  apply own_property_name in Hp. by apply number_string_not_in in Hp.
Qed.

(** Above [networkMaps], the key of a number finds nothing. *)
Lemma object_prototype_get_decimal v (z : Z) :
  object_prototype_get v (number_string z) = VUndef.
Proof.
  unfold object_prototype_get.
  rewrite decide_False by by apply number_string_neq.
  rewrite bool_decide_eq_false_2; [done|]. by apply number_string_not_in.
Qed.

Lemma network_prototype_get_decimal v (z : Z) :
  network_prototype_get v (number_string z) = VUndef.
Proof.
  unfold network_prototype_get.
  rewrite !decide_False by by apply number_string_neq.
  apply object_prototype_get_decimal.
Qed.

End Decimal.

(** ** Writes to the index *)

Section Index.

Implicit Types (st : registry) (d : ref) (k : string) (v : value).

Lemma maps_put_spec k d st c st' :
  maps_put k d st = (c, st') →
  ∀ k', networkMaps st' !! k' = networkMaps st !! k'
        ∨ (k' = k ∧ c = Returns () ∧ networkMaps st' !! k' = Some d).
Proof.
  unfold maps_put. intros H k'.
  destruct (networkMaps st !! k) eqn:Hk;
    [|destruct (inherited_read_only st k); [|case_decide]];
    simplify_eq; simpl; auto;
    (destruct (decide (k = k')) as [->|Hne];
     [right; by rewrite lookup_insert_eq | left; by rewrite lookup_insert_ne]).
Qed.

Lemma maps_put_returns k d st st' :
  maps_put k d st = (Returns (), st') →
  k ≠ "__proto__" → networkMaps st' !! k = Some d.
Proof.
  unfold maps_put. intros H Hk.
  destruct (networkMaps st !! k) eqn:Hl;
    [|destruct (inherited_read_only st k); [|case_decide]];
    simplify_eq; simpl; by rewrite lookup_insert_eq.
Qed.

(** With the prototype that [networkMaps] is created with, a write
    returns, and it keeps that prototype unless the key is [__proto__]. *)
Lemma maps_put_intact k d st :
  networkMaps_proto st = None → k ≠ "__proto__" →
  ∃ st', maps_put k d st = (Returns (), st') ∧ networkMaps_proto st' = None.
Proof.
  intros Hp Hk. unfold maps_put, inherited_read_only. rewrite Hp.
  destruct (networkMaps st !! k); [by eexists|].
  case_decide; [done|]. by eexists.
Qed.

(** An entry for the network that is being indexed stays. *)
Lemma index_each_keeps d vs : ∀ st c st' k,
  index_each d vs st = (c, st') →
  networkMaps st !! k = Some d → networkMaps st' !! k = Some d.
Proof.
  induction vs as [|v vs IH]; intros st c st' k H Hk; simpl in H; [by simplify_eq|].
  destruct (negb (isUndefined v) && negb (isObject v)); [|by eapply IH].
  destruct (maps_put (property_key v) d st) as [[[]|] st1] eqn:Hput.
  - eapply IH; [done|].
    destruct (maps_put_spec _ _ _ _ _ Hput k) as [->|(_ & _ & ->)]; done.
  - simplify_eq.
    destruct (maps_put_spec _ _ _ _ _ Hput k) as [->|(_ & _ & ->)]; done.
Qed.

(** Every entry is an old one or one for the network that is being
    indexed. *)
Lemma index_each_entries d vs : ∀ st c st' k r,
  index_each d vs st = (c, st') →
  networkMaps st' !! k = Some r → r = d ∨ networkMaps st !! k = Some r.
Proof.
  induction vs as [|v vs IH]; intros st c st' k r H Hk; simpl in H;
    [simplify_eq; auto|].
  destruct (negb (isUndefined v) && negb (isObject v)); [|by eapply IH].
  destruct (maps_put (property_key v) d st) as [[[]|] st1] eqn:Hput.
  - destruct (IH _ _ _ _ _ H Hk) as [|Hk1]; [auto|].
    destruct (maps_put_spec _ _ _ _ _ Hput k) as [<-|(_ & _ & Hd)]; [auto|].
    left. congruence.
  - simplify_eq.
    destruct (maps_put_spec _ _ _ _ _ Hput k) as [<-|(_ & ? & _)]; [auto|done].
Qed.

(** When the loop returns, every value it visited that is neither
    [undefined] nor an object leads to the network. *)
Lemma index_each_indexed d vs : ∀ st st' v,
  index_each d vs st = (Returns (), st') →
  v ∈ vs → indexable v = true → property_key v ≠ "__proto__" →
  networkMaps st' !! property_key v = Some d.
Proof.
  induction vs as [|v' vs IH]; intros st st' v H Hin Hv Hk; [by inversion Hin|].
  simpl in H. apply elem_of_cons in Hin as [->|Hin].
  - unfold indexable in Hv. rewrite Hv in H.
    destruct (maps_put (property_key v') d st) as [[[]|] st1] eqn:Hput; [|done].
    eapply index_each_keeps; [done|]. by eapply maps_put_returns.
  - destruct (negb (isUndefined v') && negb (isObject v')); [|by eapply IH].
    destruct (maps_put (property_key v') d st) as [[[]|] st1] eqn:Hput; [|done].
    by eapply IH.
Qed.

(** With the original prototype and no value spelled [__proto__], the
    loop returns and the prototype stays. *)
Lemma index_each_intact d vs : ∀ st,
  networkMaps_proto st = None →
  (∀ v, v ∈ vs → indexable v = true → property_key v ≠ "__proto__") →
  ∃ st', index_each d vs st = (Returns (), st') ∧ networkMaps_proto st' = None.
Proof.
  induction vs as [|v vs IH]; intros st Hp Hvs; simpl; [by eexists|].
  destruct (negb (isUndefined v) && negb (isObject v)) eqn:Hv.
  - destruct (maps_put_intact (property_key v) d st Hp) as (st1 & -> & Hp1).
    { apply Hvs; [left | done]. }
    apply IH; [done|]. intros v' Hin. apply Hvs. by right.
  - apply IH; [done|]. intros v' Hin. apply Hvs. by right.
Qed.

End Index.

(** ** The instance that [addNetwork] builds *)

Section NewNetwork.

Implicit Types (data : NetworkData).

(** The values that [_.each] visits include the nine fields that are
    always defined. *)
Lemma own_values_fields data :
  Forall (λ v, v ∈ own_values (new_network data))
    [ str_value (data_name data); str_value (data_alias data);
      num_value (data_pubkeyhash data); num_value (data_privatekey data);
      num_value (data_scripthash data); num_value (data_xpubkey data);
      num_value (data_xprivkey data); num_value (data_zaddr data);
      num_value (data_zkey data) ].
Proof.
  unfold own_values, own_properties, defined_properties. simpl.
  repeat (apply Forall_cons; split; [elem_of_literal|]). apply Forall_nil_2.
Qed.

(** Each of them is the name, the alias, a number, or not indexed. *)
Lemma own_values_kinds data :
  Forall (λ v, v = str_value (data_name data) ∨ v = str_value (data_alias data)
               ∨ (∃ z, v = VNum z) ∨ indexable v = false)
         (own_values (new_network data)).
Proof.
  unfold own_values, own_properties, defined_properties. simpl.
  destruct (if_truthy VNum (data_networkMagic data)),
           (if_truthy VNum (data_port data)),
           (if_truthy VArr (data_dnsSeeds data)); simpl;
    repeat (apply Forall_cons; split;
            [first [ by left | by right; left
                   | match goal with |- context [num_value ?o] => destruct o end;
                     simpl; by eauto
                   | by eauto ] |]);
    apply Forall_nil_2.
Qed.

(** No key of the index is [__proto__] unless the name or the alias is. *)
Lemma own_values_plain data :
  data_name data ≠ Some "__proto__" → data_alias data ≠ Some "__proto__" →
  ∀ v, v ∈ own_values (new_network data) → indexable v = true →
       property_key v ≠ "__proto__".
Proof.
  intros Hname Halias v Hin Hv.
  pose proof (own_values_kinds data) as HF. rewrite Forall_forall in HF.
  destruct (HF _ Hin) as [->|[->|[(z & ->)|Hno]]].
  - destruct (data_name data); simpl in *; congruence.
  - destruct (data_alias data); simpl in *; congruence.
  - apply number_string_not_proto.
  - congruence.
Qed.

(** With the original prototype, [addNetwork] returns. *)
Lemma addNetwork_returns st data :
  networkMaps_proto st = None →
  data_name data ≠ Some "__proto__" → data_alias data ≠ Some "__proto__" →
  ∃ st', addNetwork st data = (Returns (length (heap st)), st')
         ∧ networkMaps_proto st' = None.
Proof.
  intros Hp Hname Halias. unfold addNetwork.
  destruct (index_each_intact (length (heap st)) (own_values (new_network data))
              (with_heap (heap st ++ [new_network data]) st) Hp
              (own_values_plain data Hname Halias)) as (st2 & -> & Hp2).
  by eexists.
Qed.

(** What the index holds when [addNetwork] has returned. *)
Lemma addNetwork_indexed st data d st' v :
  addNetwork st data = (Returns d, st') →
  v ∈ own_values (new_network data) → indexable v = true →
  property_key v ≠ "__proto__" →
  networkMaps st' !! property_key v = Some d.
Proof.
  unfold addNetwork. intros H Hin Hv Hk.
  destruct (index_each _ _ _) as [[[]|] st2] eqn:Hix; [|done].
  simplify_eq. simpl. by eapply index_each_indexed.
Qed.

(** Every entry of the index after [addNetwork] is an old one or one
    for the new descriptor. *)
Lemma addNetwork_entries st data k r :
  networkMaps (addNetwork st data).2 !! k = Some r →
  r = length (heap st) ∨ networkMaps st !! k = Some r.
Proof.
  unfold addNetwork.
  destruct (index_each _ _ _) as [[[]|] st2] eqn:Hix; intros Hk;
    apply (index_each_entries _ _ _ _ _ _ _ Hix Hk).
Qed.

End NewNetwork.

(** ** Removal *)

Section Removal.

Implicit Types (arg : key) (l : list ref) (r : ref).

(** The loop with its index, from index [i] on, given enough fuel. *)
Lemma splice_loop_from arg fuel : ∀ i l,
  (length l - i ≤ fuel)%nat →
  splice_loop fuel arg i l = take i l ++ splice_each arg (drop i l).
Proof.
  induction fuel as [|fuel IH]; intros i l Hfuel; simpl.
  - rewrite take_ge, drop_ge by lia. by rewrite app_nil_r.
  - destruct (l !! i) as [r|] eqn:Hi.
    + pose proof (lookup_lt_Some _ _ _ Hi) as Hlt.
      rewrite (drop_S _ _ _ Hi). simpl.
      destruct (is_network arg r).
      * rewrite IH by (rewrite length_delete by eauto; lia).
        rewrite delete_take_drop.
        assert (Hlen : length (take i l) = i) by (rewrite length_take; lia).
        generalize (drop (S i) l). intros rest.
        rewrite take_app_ge, drop_app_ge by lia. rewrite Hlen.
        replace (S i - i)%nat with 1%nat by lia.
        destruct rest as [|r' l'']; simpl.
        -- by rewrite !app_nil_r.
        -- rewrite take_0, drop_0. by rewrite <- app_assoc.
      * rewrite IH by lia. rewrite (take_S_r _ _ _ Hi). by rewrite <- app_assoc.
    + apply lookup_ge_None in Hi. rewrite take_ge, drop_ge by lia.
      by rewrite app_nil_r.
Qed.

(** The loop of [removeNetwork] ends, and it computes [splice_each]. *)
Lemma splice_each_loop arg l :
  splice_loop (length l) arg 0 l = splice_each arg l.
Proof. rewrite splice_loop_from by lia. by rewrite take_0, drop_0. Qed.

(** The counted loop from index [i] on: one round more than there are
    elements left reaches the end of the list. *)
Lemma splice_run_from arg fuel : ∀ i l,
  (length l - i < fuel)%nat →
  splice_run fuel arg i l = Some (take i l ++ splice_each arg (drop i l)).
Proof.
  induction fuel as [|fuel IH]; intros i l Hfuel; simpl; [lia|].
  destruct (l !! i) as [r|] eqn:Hi.
  - pose proof (lookup_lt_Some _ _ _ Hi) as Hlt.
    rewrite (drop_S _ _ _ Hi). simpl.
    destruct (is_network arg r).
    + rewrite IH by (rewrite length_delete by eauto; lia).
      rewrite delete_take_drop.
      assert (Hlen : length (take i l) = i) by (rewrite length_take; lia).
      generalize (drop (S i) l). intros rest.
      rewrite take_app_ge, drop_app_ge by lia. rewrite Hlen.
      replace (S i - i)%nat with 1%nat by lia.
      destruct rest as [|r' l'']; simpl.
      * by rewrite !app_nil_r.
      * rewrite take_0, drop_0. by rewrite <- app_assoc.
    + rewrite IH by lia. rewrite (take_S_r _ _ _ Hi). by rewrite <- app_assoc.
  - apply lookup_ge_None in Hi. rewrite take_ge, drop_ge by lia.
    by rewrite app_nil_r.
Qed.

(** Each round examines one index: as long as nothing is removed, fewer
    rounds than the list has elements left do not reach its end. *)
Lemma splice_run_short arg fuel : ∀ i l,
  (∀ r, r ∈ l → is_network arg r = false) →
  (fuel ≤ length l - i)%nat →
  splice_run fuel arg i l = None.
Proof.
  induction fuel as [|fuel IH]; intros i l Hl Hfuel; simpl; [done|].
  destruct (l !! i) as [r|] eqn:Hi.
  - rewrite (Hl r) by (by eapply list_elem_of_lookup_2).
    apply IH; [done | lia].
  - apply lookup_ge_None in Hi. lia.
Qed.

Lemma removeNetwork_networks st arg :
  networks (removeNetwork st arg) = splice_each arg (networks st).
Proof. unfold removeNetwork. simpl. apply splice_each_loop. Qed.

Lemma splice_each_unregistered arg l :
  (∀ r, r ∈ l → is_network arg r = false) → splice_each arg l = l.
Proof.
  induction l as [|r l IH]; intros H; simpl; [done|].
  rewrite (H r) by left. f_equal. apply IH. intros r' Hr'. apply H. by right.
Qed.

(** The network that was pushed last is spliced out. *)
Lemma splice_each_last l r : r ∉ l → splice_each (KNet r) (l ++ [r]) = l.
Proof.
  induction l as [|r' l IH]; intros H; simpl.
  - by rewrite bool_decide_eq_true_2.
  - apply not_elem_of_cons in H as [Hne H].
    rewrite bool_decide_eq_false_2 by done. f_equal. by apply IH.
Qed.

(** Induction that follows the two steps of the loop. *)
Lemma list_pair_ind {A} (P : list A → Prop) :
  P [] → (∀ a, P [a]) → (∀ a b xs, P xs → P (b :: xs) → P (a :: b :: xs)) →
  ∀ xs, P xs.
Proof.
  intros Hnil Hone Hstep xs.
  cut (P xs ∧ ∀ a, P (a :: xs)); [by intros []|].
  induction xs as [|b xs [IH1 IH2]]; [by split|].
  split; [apply IH2|]. intros a. by apply Hstep.
Qed.

(** Nothing but the argument leaves the list. *)
Lemma splice_each_others arg l :
  ∀ r, r ∈ l → is_network arg r = false → r ∈ splice_each arg l.
Proof.
  induction l as [|a|a b l IH1 IH2] using list_pair_ind; intros r Hr Hne.
  - done.
  - apply list_elem_of_singleton in Hr as ->. simpl. rewrite Hne. left.
  - change (splice_each arg (a :: b :: l))
      with (if is_network arg a then b :: splice_each arg l
            else a :: splice_each arg (b :: l)).
    destruct (is_network arg a) eqn:Ha.
    + apply elem_of_cons in Hr as [->|Hr]; [congruence|].
      apply elem_of_cons in Hr as [->|Hr]; [left | right; by apply IH1].
    + apply elem_of_cons in Hr as [->|Hr]; [left | right; by apply IH2].
Qed.

Lemma splice_each_subset arg l : ∀ r, r ∈ splice_each arg l → r ∈ l.
Proof.
  induction l as [|a|a b l IH1 IH2] using list_pair_ind; intros r Hr.
  - done.
  - simpl in Hr. destruct (is_network arg a); [by inversion Hr | done].
  - change (splice_each arg (a :: b :: l))
      with (if is_network arg a then b :: splice_each arg l
            else a :: splice_each arg (b :: l)) in Hr.
    destruct (is_network arg a).
    + apply elem_of_cons in Hr as [->|Hr]; [right; left | right; right; by apply IH1].
    + apply elem_of_cons in Hr as [->|Hr]; [left | right; by apply IH2].
Qed.

Lemma delete_each_lookup arg (m : gmap string ref) k r :
  delete_each arg m !! k = Some r ↔ m !! k = Some r ∧ is_network arg r = false.
Proof. unfold delete_each. by rewrite map_lookup_filter_Some. Qed.

Lemma delete_each_unregistered arg (m : gmap string ref) :
  (∀ k r, m !! k = Some r → is_network arg r = false) → delete_each arg m = m.
Proof. intros H. unfold delete_each. by apply map_filter_id. Qed.

(** No entry for the removed network is left. *)
Lemma delete_each_purged (m : gmap string ref) k r :
  m !! k = Some r → delete_each (KNet r) m !! k = None.
Proof.
  intros H. unfold delete_each. apply map_lookup_filter_None. right.
  intros r' Hr'. simplify_eq. simpl. by rewrite bool_decide_eq_true_2.
Qed.

End Removal.

(** ** Registries that calls can produce *)

Section Reachable.

Implicit Types (st : registry) (cs : list call) (r : ref).

Lemma after_all_cons st c cs : after_all st (c :: cs) = after_all (after st c) cs.
Proof. done. Qed.

Lemma after_all_app st cs cs' :
  after_all st (cs ++ cs') = after_all (after_all st cs) cs'.
Proof. apply foldl_app. Qed.

Lemma valid_after st c : valid st → valid (after st c).
Proof.
  intros Hv r. destruct c as [data|arg|arg keys| |]; simpl.
  - rewrite addNetwork_networks, addNetwork_heap, length_app. simpl.
    destruct (addNetwork st data).1 as [d|] eqn:Hd.
    + apply addNetwork_returns_fresh in Hd as ->.
      rewrite elem_of_app, list_elem_of_singleton.
      intros [Hr| ->]; [apply Hv in Hr|]; lia.
    + intros Hr. apply Hv in Hr. lia.
  - rewrite splice_each_loop. intros Hr. apply splice_each_subset in Hr. by apply Hv.
  - apply Hv.
  - rewrite length_alter. apply Hv.
  - rewrite length_alter. apply Hv.
Qed.

(** Loading the module throws nowhere, and [get] finds the two
    descriptors under their names. *)
Lemma module_loads :
  addNetwork empty_registry livenet_data = (Returns livenet, registry_after_livenet)
  ∧ get registry_after_livenet (KStr "livenet") NoKeys = VNet livenet
  ∧ addNetwork registry_after_livenet testnet_data
    = (Returns testnet, registry_after_testnet)
  ∧ get registry_after_testnet (KStr "testnet") NoKeys = VNet testnet
  ∧ (index_bundle (bundle_values TESTNET) registry_after_testnet).1 = Returns ()
  ∧ (index_bundle (bundle_values REGTEST)
       (index_bundle (bundle_values TESTNET) registry_after_testnet).2).1 = Returns ()
  ∧ networkMaps_proto loaded = None.
Proof. split_and!; by vm_compute. Qed.

Lemma networks_loaded : networks loaded = [livenet; testnet].
Proof. by vm_compute. Qed.

Lemma valid_loaded : valid loaded.
Proof.
  intros r. rewrite networks_loaded. change (length (heap loaded)) with 2%nat.
  rewrite !elem_of_cons. unfold livenet, testnet.
  intros [->|[->|Hr]]; [lia | lia | by inversion Hr].
Qed.

Lemma valid_after_all cs : ∀ st, valid st → valid (after_all st cs).
Proof.
  induction cs as [|c cs IH]; intros st Hv; [done|].
  apply IH. by apply valid_after.
Qed.

Lemma accessors_after st c : accessors_on_testnet st → accessors_on_testnet (after st c).
Proof.
  intros Ha r n. destruct c as [data|arg|arg keys| |]; simpl; try apply Ha.
  - rewrite addNetwork_heap. intros Hr.
    apply lookup_app_Some in Hr as [Hr|[_ Hr]]; [by eapply Ha|].
    apply list_lookup_singleton_Some in Hr as [_ <-]. done.
  - rewrite list_lookup_alter. case_decide; [by intros|apply Ha].
  - rewrite list_lookup_alter. case_decide; [by intros|apply Ha].
Qed.

Lemma accessors_after_all cs : ∀ st,
  accessors_on_testnet st → accessors_on_testnet (after_all st cs).
Proof.
  induction cs as [|c cs IH]; intros st Ha; [done|].
  apply IH. by apply accessors_after.
Qed.

Lemma accessors_loaded : accessors_on_testnet loaded.
Proof.
  intros r n. change (heap loaded) with
    [new_network livenet_data; define_accessors (new_network testnet_data)].
  destruct r as [|[|r]]; simpl; intros; simplify_eq; done.
Qed.

Lemma testnet_loaded : heap loaded !! testnet = Some testnet_instance.
Proof. done. Qed.

Lemma testnet_after_all cs :
  ∃ o, heap (after_all loaded cs) !! testnet
       = Some (with_regtestEnabled o testnet_instance).
Proof.
  destruct (after_all_frame cs loaded testnet _ testnet_loaded) as (o & Ho & _).
  by exists o.
Qed.

End Reachable.

(** ** Lookups *)

Section Lookups.

Implicit Types (st : registry) (z : Z) (r : ref).

Lemma get_number st z : get st (KNum z) NoKeys = maps_get st (number_string z).
Proof. done. Qed.

Lemma get_string st k : get st (KStr k) NoKeys = maps_get st k.
Proof. done. Qed.

Lemma maps_get_own st k r : networkMaps st !! k = Some r → maps_get st k = VNet r.
Proof. unfold maps_get. by intros ->. Qed.

(** The key of a number that is not an own entry finds nothing. *)
Lemma maps_get_decimal st z :
  networkMaps st !! number_string z = None → maps_get st (number_string z) = VUndef.
Proof.
  unfold maps_get. intros ->.
  destruct (networkMaps_proto st) as [p|]; [|apply object_prototype_get_decimal].
  destruct (heap st !! p) as [n|]; [|apply network_prototype_get_decimal].
  rewrite number_string_not_owned. apply network_prototype_get_decimal.
Qed.

(** With the original prototype, a key that is neither an own entry nor
    a name of [Object.prototype] finds nothing. *)
Lemma maps_get_absent st k :
  networkMaps_proto st = None → networkMaps st !! k = None →
  inherited_name k = false → maps_get st k = VUndef.
Proof.
  unfold maps_get, object_prototype_get, inherited_name.
  intros -> -> Hk. apply bool_decide_eq_false in Hk.
  apply not_elem_of_cons in Hk as [Hne Hk].
  rewrite decide_False by done. by rewrite bool_decide_eq_false_2.
Qed.

(** The toggle leaves the list and the index alone. *)
Lemma toggles_index (bs : list bool) : ∀ st,
  networks (after_all st (toggle <$> bs)) = networks st
  ∧ networkMaps (after_all st (toggle <$> bs)) = networkMaps st
  ∧ networkMaps_proto (after_all st (toggle <$> bs)) = networkMaps_proto st.
Proof.
  induction bs as [|b bs IH]; intros st; [done|].
  rewrite fmap_cons, after_all_cons.
  destruct (IH (after st (toggle b))) as (-> & -> & ->). by destruct b.
Qed.

End Lookups.

(** ** The registry at load time and under the toggle *)

(** C1, as amended. Of the values of the two bundles, the ports 18233 and
    18444 are entries of the reverse index that lead to the testnet
    descriptor, and [get] of either returns it whatever the toggle calls
    made so far. The two magic values are held as buffers, which are
    objects, so the loops of lines 186-202 skip them: [get] of the raw
    magic number 0xfa1af9bf or 0xaae83f5f returns [undefined]. *)
Theorem bundle_ports_indexed (toggles : list bool) :
  let st := after_all loaded (toggle <$> toggles) in
  get st (KNum 18233) NoKeys = VNet testnet
  ∧ get st (KNum 18444) NoKeys = VNet testnet
  ∧ isObject (NETWORK_MAGIC TESTNET) = true
  ∧ isObject (NETWORK_MAGIC REGTEST) = true
  ∧ get st (KNum 0xfa1af9bf) NoKeys = VUndef
  ∧ get st (KNum 0xaae83f5f) NoKeys = VUndef.
Proof.
  intros st. destruct (toggles_index toggles loaded) as (_ & Hm & Hp).
  fold st in Hm, Hp.
  assert (Hget : ∀ z, get st (KNum z) NoKeys = get loaded (KNum z) NoKeys).
  { intros z. rewrite !get_number. unfold maps_get. rewrite Hm, Hp. done. }
  rewrite (Hget 18233), (Hget 18444), (Hget 0xfa1af9bf), (Hget 0xaae83f5f).
  clear. by vm_compute.
Qed.

(** C1, as stated, fails: the magic number of the testnet bundle is not a
    key of the reverse index, and [get] of it does not return the testnet
    descriptor. *)
Lemma bundle_magic_not_indexed :
  networkMaps loaded !! property_key (VNum 0xfa1af9bf) = None
  ∧ get loaded (KNum 0xfa1af9bf) NoKeys = VUndef
  ∧ get loaded (KNum 0xfa1af9bf) NoKeys ≠ VNet testnet.
Proof. by vm_compute. Qed.

Section Toggle.

Implicit Types (st : registry) (cs : list call) (n : Network).

Lemma read_enableRegtest cs k :
  read (enableRegtest (after_all loaded cs)) testnet k
  = read_field (with_regtestEnabled (Some (VBool true)) testnet_instance) k.
Proof.
  destruct (testnet_after_all cs) as (o & Ho).
  unfold read, enableRegtest. simpl. by rewrite list_lookup_alter_eq, Ho.
Qed.

Lemma read_disableRegtest cs k :
  read (disableRegtest (after_all loaded cs)) testnet k
  = read_field (with_regtestEnabled (Some (VBool false)) testnet_instance) k.
Proof.
  destruct (testnet_after_all cs) as (o & Ho).
  unfold read, disableRegtest. simpl. by rewrite list_lookup_alter_eq, Ho.
Qed.

(** Without a call of [enableRegtest], [regtestEnabled] stays falsy. *)
Lemma quiet_after_all cs : ∀ st n,
  EnableRegtest ∉ cs →
  heap st !! testnet = Some n → regtest_mode n = false →
  ∃ o, heap (after_all st cs) !! testnet = Some (with_regtestEnabled o n)
       ∧ regtest_mode (with_regtestEnabled o n) = false.
Proof.
  induction cs as [|c cs IH]; intros st n Hq Hn Hm.
  - exists (regtestEnabled n). by rewrite with_regtestEnabled_same.
  - apply not_elem_of_cons in Hq as [Hc Hq]. simpl.
    assert (∃ o, heap (after st c) !! testnet = Some (with_regtestEnabled o n)
                 ∧ regtest_mode (with_regtestEnabled o n) = false)
      as (o & Ho & Hmo).
    { destruct c as [data|arg|arg keys| |]; simpl.
      - exists (regtestEnabled n). rewrite with_regtestEnabled_same.
        rewrite addNetwork_heap, lookup_app_l by (by eapply lookup_lt_Some). done.
      - exists (regtestEnabled n). by rewrite with_regtestEnabled_same.
      - exists (regtestEnabled n). by rewrite with_regtestEnabled_same.
      - done.
      - exists (Some (VBool false)). by rewrite list_lookup_alter_eq, Hn. }
    destruct (IH _ _ Hq Ho Hmo) as (o' & Ho' & Hmo'). by exists o'.
Qed.

End Toggle.

(** C2. Whatever calls were made since the module was loaded: as long as
    [enableRegtest] was not among them, [testnet.port] is 18233; after
    [enableRegtest()] it is 18444; after a following [disableRegtest()] it
    is 18233 again; [testnet.pubkeyhash] is 0x1d25 at each of the three
    moments. The toggle allocates no instance and leaves the list and the
    index as they are: [testnet] is the same object before and after. *)
Theorem testnet_port_toggle (cs : list call) :
  let st := after_all loaded cs in
  (EnableRegtest ∉ cs → read st testnet "port" = VNum 18233)
  ∧ read (enableRegtest st) testnet "port" = VNum 18444
  ∧ read (disableRegtest (enableRegtest st)) testnet "port" = VNum 18233
  ∧ read st testnet "pubkeyhash" = VNum 0x1d25
  ∧ read (enableRegtest st) testnet "pubkeyhash" = VNum 0x1d25
  ∧ read (disableRegtest (enableRegtest st)) testnet "pubkeyhash" = VNum 0x1d25
  ∧ length (heap (enableRegtest st)) = length (heap st)
  ∧ networks (enableRegtest st) = networks st
  ∧ networkMaps (enableRegtest st) = networkMaps st
  ∧ get (enableRegtest st) (KNet testnet) NoKeys = get st (KNet testnet) NoKeys.
Proof.
  intros st. split_and!.
  - intros Hq.
    destruct (quiet_after_all cs loaded _ Hq testnet_loaded eq_refl) as (o & Ho & Hm).
    unfold read. fold st in Ho. rewrite Ho.
    destruct o as [v|]; [|done].
    change (truthy v = false) in Hm.
    change (PORT (if truthy v then REGTEST else TESTNET) = VNum 18233).
    by rewrite Hm.
  - unfold st. by rewrite read_enableRegtest.
  - replace (enableRegtest st) with (after_all loaded (cs ++ [EnableRegtest]))
      by (unfold st; by rewrite after_all_app).
    by rewrite read_disableRegtest.
  - destruct (testnet_after_all cs) as (o & Ho). unfold read. fold st in Ho.
    rewrite Ho. by destruct o.
  - unfold st. by rewrite read_enableRegtest.
  - replace (enableRegtest st) with (after_all loaded (cs ++ [EnableRegtest]))
      by (unfold st; by rewrite after_all_app).
    by rewrite read_disableRegtest.
  - unfold enableRegtest. simpl. by rewrite length_alter.
  - done.
  - done.
  - unfold get, registered, argument_key, toString, enableRegtest. simpl.
    destruct (bool_decide (testnet ∈ networks st)); [done|].
    destruct (testnet_after_all cs) as (o & Ho). fold st in Ho.
    rewrite list_lookup_alter_eq, Ho. simpl.
    unfold maps_get. cbn [networkMaps networkMaps_proto heap with_heap].
    destruct (networkMaps st !! "testnet"); [done|].
    destruct (networkMaps_proto st) as [p|]; [|done].
    rewrite list_lookup_alter. case_decide; [|done].
    subst p. rewrite Ho. by destruct o.
Qed.

(** C2 at load time, before any call: the port is 18233. *)
Lemma testnet_port_toggle_witness :
  (EnableRegtest ∉ ([] : list call))
  ∧ read (after_all loaded []) testnet "port" = VNum 18233.
Proof.
  split.
  - apply not_elem_of_nil.
  - apply (proj1 (testnet_port_toggle [])). apply not_elem_of_nil.
Defined.

(** C8. Whatever calls were made since the module was loaded,
    [testnet.dnsSeeds] is the sequence of the bundle that
    [testnet.regtestEnabled] selects: the one seed of the testnet bundle
    while it is falsy, the empty sequence of the regtest bundle while it is
    truthy. In particular it has one element at load time and after
    [disableRegtest()], and none after [enableRegtest()]. *)
Theorem testnet_dnsSeeds_mode (cs : list call) :
  let st := after_all loaded cs in
  (∃ seeds, read st testnet "dnsSeeds" = VArr seeds
            ∧ (truthy (read st testnet "regtestEnabled") = false → seeds ≠ [])
            ∧ (truthy (read st testnet "regtestEnabled") = true → seeds = []))
  ∧ read loaded testnet "dnsSeeds" = VArr ["dnsseedtestnet.zelcash.online"]
  ∧ read (enableRegtest st) testnet "regtestEnabled" = VBool true
  ∧ read (enableRegtest st) testnet "dnsSeeds" = VArr []
  ∧ read (disableRegtest st) testnet "regtestEnabled" = VBool false
  ∧ read (disableRegtest st) testnet "dnsSeeds" = VArr ["dnsseedtestnet.zelcash.online"].
Proof.
  intros st. split_and!.
  - destruct (testnet_after_all cs) as (o & Ho). fold st in Ho.
    unfold read. rewrite Ho. destruct o as [v|].
    + change (read_field (with_regtestEnabled (Some v) testnet_instance) "regtestEnabled")
        with v.
      change (read_field (with_regtestEnabled (Some v) testnet_instance) "dnsSeeds")
        with (DNS_SEEDS (if truthy v then REGTEST else TESTNET)).
      destruct (truthy v); eexists; (split; [done|]); split; done.
    + eexists. split; [done|]. split; done.
  - done.
  - unfold st. by rewrite read_enableRegtest.
  - unfold st. by rewrite read_enableRegtest.
  - unfold st. by rewrite read_disableRegtest.
  - unfold st. by rewrite read_disableRegtest.
Qed.

(** C8 at load time: nothing has set [regtestEnabled], and there is a seed. *)
Lemma testnet_dnsSeeds_mode_witness :
  truthy (read (after_all loaded []) testnet "regtestEnabled") = false
  ∧ ∃ seeds, read (after_all loaded []) testnet "dnsSeeds" = VArr seeds ∧ seeds ≠ [].
Proof.
  split; [reflexivity|].
  destruct (proj1 (testnet_dnsSeeds_mode [])) as (seeds & Hs & Hne & _).
  exists seeds. split; [exact Hs|]. apply Hne. reflexivity.
Defined.

(** ** [get] *)

(** C6. A descriptor that is in the ordered list is returned by [get] as
    it is, whether or not [keys] is given. *)
Theorem get_registered (st : registry) (r : ref) (keys : keys_arg) :
  r ∈ networks st → get st (KNet r) keys = VNet r.
Proof.
  intros Hr. unfold get, registered. by rewrite bool_decide_eq_true_2.
Qed.

(** C6 for [livenet] in the registry as loaded. *)
Lemma get_registered_witness :
  livenet ∈ networks loaded
  ∧ get loaded (KNet livenet) NoKeys = VNet livenet
  ∧ get loaded (KNet livenet) (OneKey "port") = VNet livenet.
Proof.
  assert (H : livenet ∈ networks loaded).
  { rewrite networks_loaded. apply list_elem_of_here. }
  split; [exact H|].
  split; apply get_registered; exact H.
Defined.

(** C10. A number that is a key of the reverse index is found by [get]
    under the number and under its string form alike: both lookups use
    the same string, the one [String] gives for the number. That is its
    decimal notation for the prefixes, magic numbers and ports of a
    network (['8233'] for [8233]), and the exponent notation from [1e21]
    on. *)
Theorem get_number_or_string (st : registry) (z : Z) (r : ref) :
  networkMaps st !! property_key (VNum z) = Some r →
  get st (KNum z) NoKeys = VNet r
  ∧ get st (KStr (property_key (VNum z))) NoKeys = VNet r.
Proof.
  intros H. rewrite get_number, get_string. simpl in *.
  split; by apply maps_get_own.
Qed.

(** C10 for the port of livenet: [get(8233)] and [get('8233')]. *)
Lemma get_number_or_string_witness :
  networkMaps loaded !! property_key (VNum 8233) = Some livenet
  ∧ get loaded (KNum 8233) NoKeys = VNet livenet
  ∧ get loaded (KStr "8233") NoKeys = VNet livenet.
Proof.
  assert (H : networkMaps loaded !! property_key (VNum 8233) = Some livenet)
    by (vm_compute; reflexivity).
  split; [exact H|]. exact (get_number_or_string loaded 8233 livenet H).
Defined.

(** Whether or not the number is indexed, the two lookups agree. *)
Lemma get_number_string st z :
  get st (KNum z) NoKeys = get st (KStr (number_string z)) NoKeys.
Proof. done. Qed.

(** The two lookups agree at [1e21] too, where the string form is
    ['1e+21']: the descriptor added with that pubkeyhash is found under the
    number and under ['1e+21'], and not under the twenty-two digits. *)
Lemma get_large_number :
  let added := addNetwork loaded large_prefix_data in
  added.1 = Returns 2%nat
  ∧ property_key (VNum (10 ^ 21)) = "1e+21"
  ∧ get added.2 (KNum (10 ^ 21)) NoKeys = VNet 2%nat
  ∧ get added.2 (KStr "1e+21") NoKeys = VNet 2%nat
  ∧ get added.2 (KStr "1000000000000000000000") NoKeys = VUndef.
Proof. split_and!; by vm_compute. Qed.

(** On insertion too the key is the string: once [addNetwork] has
    returned, a number that the new descriptor holds in a field leads to it
    under either form. *)
Lemma addNetwork_number_found st data d st' z :
  addNetwork st data = (Returns d, st') →
  VNum z ∈ own_values (new_network data) →
  get st' (KNum z) NoKeys = VNet d
  ∧ get st' (KStr (number_string z)) NoKeys = VNet d.
Proof.
  intros Hadd Hin. rewrite <- get_number_string. split; rewrite get_number;
    apply maps_get_own;
    by apply (addNetwork_indexed st data d st' (VNum z) Hadd Hin eq_refl),
             number_string_not_proto.
Qed.

(** ** Descriptors do not change *)

Section Frozen.

Implicit Types (n : Network) (k : string).

(** An own property other than [regtestEnabled] refuses assignment, and
    the assignment leaves the properties of the instance as they are. *)
Lemma assign_refused n k p v :
  own_property n k = Some p → k ≠ "regtestEnabled" → assign n k v = Refused.
Proof.
  intros Hp Hk. unfold assign. rewrite Hp.
  destruct p as [v' [|]|g]; [|done|done].
  by apply own_property_writable in Hp.
Qed.

Lemma assigned_properties_refused n k p v :
  own_property n k = Some p → k ≠ "regtestEnabled" →
  assigned_properties n k v = own_properties n.
Proof.
  intros Hp Hk. unfold assigned_properties. by rewrite (assign_refused n k p v).
Qed.

(** A name that the instance does not own is created by the assignment,
    apart from the accessor [__proto__], and the instance then holds the
    value under that name. *)
Lemma assign_created n k v :
  own_property n k = None → k ≠ "__proto__" → k ≠ "regtestEnabled" →
  assign n k v = Created k v.
Proof.
  intros Hp Hproto Hk. unfold assign. rewrite Hp.
  by rewrite !decide_False.
Qed.

Lemma assigned_properties_created n k v :
  own_property n k = None → k ≠ "__proto__" → k ≠ "regtestEnabled" →
  assoc k (assigned_properties n k v) = Some (DataProp v true).
Proof.
  intros Hp Hproto Hk. unfold assigned_properties.
  rewrite assign_created by done.
  unfold own_property in Hp. rewrite assoc_app, Hp. simpl.
  by rewrite decide_True.
Qed.

Lemma own_property_with_regtestEnabled o n k :
  k ≠ "regtestEnabled" →
  own_property (with_regtestEnabled o n) k = own_property n k.
Proof. intros Hk. by rewrite !own_property_defined. Qed.

Lemma optional_name k :
  k ∈ ["networkMagic"; "port"; "dnsSeeds"] →
  k ≠ "__proto__" ∧ k ≠ "regtestEnabled".
Proof.
  intros Hk. repeat (apply elem_of_cons in Hk as [->|Hk]; [done|]).
  by inversion Hk.
Qed.

End Frozen.

(** C7, as amended. Take a registry that calls have produced since the
    module was loaded, a descriptor in it, and any further sequence of
    calls of [add], [remove], [get], [enableRegtest] and [disableRegtest].
    Afterwards the descriptor is the same instance with every stored field
    but [regtestEnabled] as before, and a descriptor other than testnet has
    not changed at all. Reading any field other than [regtestEnabled] gives
    what it gave before, except [port], [networkMagic] and [dnsSeeds] of
    testnet, which are read from the bundle that [regtestEnabled] selects
    at the time of the read. The descriptor has the fields it had.
    Assigning to a field that it has, other than [regtestEnabled], is
    refused and leaves its properties as they are. The descriptor is not
    frozen, though: assigning to [networkMagic], [port] or [dnsSeeds] when
    the descriptor has no such field is accepted, and creates the field
    with the assigned value. *)
Theorem descriptor_fields_frozen (before calls : list call) (r : ref) (n : Network) :
  let st := after_all loaded before in
  heap st !! r = Some n →
  ∃ n', heap (after_all st calls) !! r = Some n'
        ∧ n' = with_regtestEnabled (regtestEnabled n') n
        ∧ (r ≠ testnet → n' = n)
        ∧ (∀ k, k ≠ "regtestEnabled" →
                ¬ (r = testnet ∧ k ∈ ["port"; "networkMagic"; "dnsSeeds"]) →
                read_field n' k = read_field n k)
        ∧ (r = testnet →
           let b := if regtest_mode n' then REGTEST else TESTNET in
           read_field n' "port" = PORT b
           ∧ read_field n' "networkMagic" = NETWORK_MAGIC b
           ∧ read_field n' "dnsSeeds" = DNS_SEEDS b)
        ∧ (∀ k, k ≠ "regtestEnabled" → own_property n' k = own_property n k)
        ∧ (∀ k p v, own_property n' k = Some p → k ≠ "regtestEnabled" →
                    assign n' k v = Refused
                    ∧ assigned_properties n' k v = own_properties n')
        ∧ (∀ k v, k ∈ ["networkMagic"; "port"; "dnsSeeds"] →
                  own_property n' k = None →
                  assign n' k v = Created k v
                  ∧ assoc k (assigned_properties n' k v) = Some (DataProp v true)).
Proof.
  intros st Hr.
  destruct (after_all_frame calls st r n Hr) as (o & Ho & Hne).
  exists (with_regtestEnabled o n). split_and!.
  - done.
  - done.
  - intros Hrt. rewrite (Hne Hrt). apply with_regtestEnabled_same.
  - intros k Hk Hnot. apply read_field_with_regtestEnabled; [done|].
    destruct (accessors n) eqn:Ha; [right | by left].
    intros Hin. apply Hnot. split; [|done].
    eapply (accessors_after_all before loaded accessors_loaded); done.
  - intros ->.
    destruct (testnet_after_all before) as (o' & Ho'). fold st in Ho'.
    rewrite Hr in Ho'. injection Ho' as ->. by destruct o.
  - intros k Hk. by apply own_property_with_regtestEnabled.
  - intros k p v Hp Hk. split.
    + by eapply assign_refused.
    + by eapply assigned_properties_refused.
  - intros k v Hk Hp. destruct (optional_name k Hk) as [Hproto Hreg]. split.
    + by apply assign_created.
    + by apply assigned_properties_created.
Qed.

(** C7 as amended, for testnet across [enableRegtest(); add(livenet's
    data)]: the prefix of its public-key hashes reads as before, and
    [testnet.port = 5] is refused. *)
Lemma descriptor_fields_frozen_witness :
  heap (after_all loaded []) !! testnet = Some testnet_instance
  ∧ ∃ n', heap (after_all loaded [EnableRegtest; Add livenet_data]) !! testnet = Some n'
          ∧ read_field n' "pubkeyhash" = VNum 0x1d25
          ∧ assign n' "port" (VNum 5) = Refused.
Proof.
  split; [reflexivity|].
  destruct (descriptor_fields_frozen [] [EnableRegtest; Add livenet_data]
              testnet testnet_instance eq_refl)
    as (n' & Hn' & _ & _ & Hread & _ & Hown & Hrefused & _).
  exists n'. split; [exact Hn'|]. split.
  - rewrite Hread; [reflexivity | discriminate |].
    intros [_ Hin]. apply elem_of_cons in Hin as [Hin|Hin]; [discriminate|].
    apply elem_of_cons in Hin as [Hin|Hin]; [discriminate|].
    apply elem_of_cons in Hin as [Hin|Hin]; [discriminate|].
    by inversion Hin.
  - apply (Hrefused "port" (AccessorProp GetPort)); [|discriminate].
    rewrite Hown by discriminate. reflexivity.
Defined.

(** C7, as stated, fails: the descriptor that [add] returns for a
    specification without a port is in the list, has no [port], and
    [d.port = 5] is not refused; the descriptor then has the port 5, in a
    writable field. *)
Lemma descriptor_port_assigned :
  let added := addNetwork loaded first_data in
  let n := new_network first_data in
  added.1 = Returns 2%nat
  ∧ networks added.2 = [livenet; testnet; 2%nat]
  ∧ heap added.2 !! 2%nat = Some n
  ∧ read_field n "port" = VUndef
  ∧ assign n "port" (VNum 5) = Created "port" (VNum 5)
  ∧ assoc "port" (assigned_properties n "port" (VNum 5))
    = Some (DataProp (VNum 5) true)
  ∧ assign n "port" (VNum 5) ≠ Refused.
Proof. split_and!; by vm_compute. Qed.

(** ** [addNetwork] *)

Section Added.

Implicit Types (st : registry) (data : NetworkData).

(** The descriptor that [addNetwork] returns is the instance it built. *)
Lemma addNetwork_instance st data d st' :
  addNetwork st data = (Returns d, st') → heap st' !! d = Some (new_network data).
Proof.
  intros H.
  assert (Hd : d = length (heap st)) by (apply (addNetwork_returns_fresh st data); by rewrite H).
  pose proof (addNetwork_heap st data) as Hh. rewrite H in Hh. simpl in Hh.
  rewrite Hh, Hd. apply list_lookup_middle. done.
Qed.

Lemma new_network_optional data :
  own_property (new_network data) "networkMagic"
    = (λ m, immutable (integerAsBuffer m)) <$> if_truthy VNum (data_networkMagic data)
  ∧ own_property (new_network data) "port"
    = (λ p, immutable (VNum p)) <$> if_truthy VNum (data_port data)
  ∧ own_property (new_network data) "dnsSeeds"
    = (λ l, immutable (VArr l)) <$> if_truthy VArr (data_dnsSeeds data).
Proof.
  unfold own_property, own_properties, defined_properties, new_network. simpl.
  destruct (if_truthy VNum (data_networkMagic data)),
           (if_truthy VNum (data_port data)),
           (if_truthy VArr (data_dnsSeeds data)); done.
Qed.

End Added.

(** C5, as amended. The descriptor that [add(spec)] returns has a
    [networkMagic], a [port] or a [dnsSeeds] exactly when the field of the
    specification is truthy: when [networkMagic], respectively [port], is
    present and not 0, and when [dnsSeeds] is present (an array, even an
    empty one, is truthy). The field then holds the buffer of the magic
    number, the port, and the sequence of seeds. *)
Theorem addNetwork_optional_fields (st st' : registry) (data : NetworkData) (d : ref) :
  addNetwork st data = (Returns d, st') →
  ∃ n, heap st' !! d = Some n
       ∧ own_property n "networkMagic"
         = match data_networkMagic data with
           | Some m => if decide (m = 0) then None
                       else Some (DataProp (integerAsBuffer m) false)
           | None => None
           end
       ∧ own_property n "port"
         = match data_port data with
           | Some p => if decide (p = 0) then None else Some (DataProp (VNum p) false)
           | None => None
           end
       ∧ own_property n "dnsSeeds"
         = match data_dnsSeeds data with
           | Some l => Some (DataProp (VArr l) false)
           | None => None
           end.
Proof.
  intros H. exists (new_network data). split; [by eapply addNetwork_instance|].
  destruct (new_network_optional data) as (-> & -> & ->).
  unfold if_truthy, truthy. split_and!.
  - destruct (data_networkMagic data) as [m|]; [|done].
    case_decide; [by rewrite bool_decide_eq_true_2 | by rewrite bool_decide_eq_false_2].
  - destruct (data_port data) as [p|]; [|done].
    case_decide; [by rewrite bool_decide_eq_true_2 | by rewrite bool_decide_eq_false_2].
  - by destruct (data_dnsSeeds data).
Qed.

(** C5 as amended, on that specification: only [dnsSeeds] is set. *)
Lemma addNetwork_optional_fields_witness :
  (addNetwork loaded port_zero_data).1 = Returns 2%nat
  ∧ ∃ n, heap (addNetwork loaded port_zero_data).2 !! 2%nat = Some n
         ∧ own_property n "networkMagic" = None
         ∧ own_property n "port" = None
         ∧ own_property n "dnsSeeds" = Some (DataProp (VArr []) false).
Proof.
  assert (H : addNetwork loaded port_zero_data
              = (Returns 2%nat, (addNetwork loaded port_zero_data).2))
    by (vm_compute; reflexivity).
  split; [rewrite H; reflexivity|].
  destruct (addNetwork_optional_fields loaded _ port_zero_data 2%nat H)
    as (n & Hn & Hm & Hp & Hs).
  exists n. split; [exact Hn|]. split; [exact Hm|]. split; [exact Hp | exact Hs].
Defined.

(** C5, as stated, fails: the specification gives a port, the value 0, and
    the descriptor that [add] returns has no [port]; reading it gives
    [undefined]. *)
Lemma addNetwork_port_zero_unset :
  data_port port_zero_data = Some 0
  ∧ (addNetwork loaded port_zero_data).1 = Returns 2%nat
  ∧ heap (addNetwork loaded port_zero_data).2 !! 2%nat
    = Some (new_network port_zero_data)
  ∧ own_property (new_network port_zero_data) "port" = None
  ∧ read (addNetwork loaded port_zero_data).2 2%nat "port" = VUndef.
Proof. split_and!; by vm_compute. Qed.

(** ** [removeNetwork] *)

Section Unregistered.

Implicit Types (st : registry) (arg : key) (cs : list call).

Lemma registered_false st arg r :
  registered st arg = false → r ∈ networks st → is_network arg r = false.
Proof.
  destruct arg as [| | |q]; simpl; try done.
  intros Hq Hr. apply bool_decide_eq_false in Hq.
  apply bool_decide_eq_false. by intros ->.
Qed.

(** What is not in the list is not spliced out, and what no entry leads to
    has no entry deleted. *)
Lemma removeNetwork_networks_unregistered st arg :
  registered st arg = false → networks (removeNetwork st arg) = networks st.
Proof.
  intros Hreg. rewrite removeNetwork_networks.
  apply splice_each_unregistered. intros r. by apply registered_false.
Qed.

Lemma removeNetwork_index_unregistered st arg :
  (∀ k r, networkMaps st !! k = Some r → is_network arg r = false) →
  networkMaps (removeNetwork st arg) = networkMaps st.
Proof. intros Hidx. unfold removeNetwork. simpl. by apply delete_each_unregistered. Qed.

Lemma removeNetwork_rest st arg :
  heap (removeNetwork st arg) = heap st
  ∧ networkMaps_proto (removeNetwork st arg) = networkMaps_proto st.
Proof. done. Qed.

Lemma registry_eq (st st' : registry) :
  heap st = heap st' → networks st = networks st' →
  networkMaps st = networkMaps st' → networkMaps_proto st = networkMaps_proto st' →
  st = st'.
Proof. destruct st, st'; simpl; by intros -> -> -> ->. Qed.

Lemma index_listed_after st c :
  index_listed st → returned st c → index_listed (after st c).
Proof.
  intros Hl Hret k r. destruct c as [data|arg|arg keys| |]; simpl; try apply Hl.
  - destruct Hret as (d & Hd). rewrite addNetwork_networks, Hd.
    apply addNetwork_returns_fresh in Hd as ->. intros Hk.
    apply addNetwork_entries in Hk as [->|Hold].
    + apply elem_of_app. right. left.
    + apply elem_of_app. left. by eapply Hl.
  - intros Hk. apply delete_each_lookup in Hk as [Hk Hne].
    rewrite splice_each_loop. apply splice_each_others; [by eapply Hl | done].
Qed.

Lemma index_listed_after_all cs : ∀ st,
  index_listed st → all_returned st cs → index_listed (after_all st cs).
Proof.
  induction cs as [|c cs IH]; intros st Hl Hret; [done|].
  destruct Hret as [Hc Hcs]. apply IH; [by apply index_listed_after | done].
Qed.

Lemma index_listed_loaded : index_listed loaded.
Proof.
  assert (H : map_Forall (λ (_ : string) r, r ∈ networks loaded) (networkMaps loaded)).
  { eapply bool_decide_eq_true_1. by vm_compute. }
  intros k r. apply H.
Qed.

(** As long as every call has returned, removing what is not in the list
    changes nothing. *)
Lemma removeNetwork_unlisted cs arg :
  all_returned loaded cs →
  registered (after_all loaded cs) arg = false →
  removeNetwork (after_all loaded cs) arg = after_all loaded cs.
Proof.
  intros Hret Hreg. apply registry_eq; [done| | |done].
  - by apply removeNetwork_networks_unregistered.
  - apply removeNetwork_index_unregistered.
    intros k r Hk. eapply registered_false; [done|].
    by eapply (index_listed_after_all cs loaded index_listed_loaded).
Qed.

End Unregistered.

(** [remove] never throws (it is a total function of the registry), and
    if its argument is not in the ordered list and no entry of the reverse
    index leads to it, the registry after the call is the registry before
    it: same list, same index. Every descriptor outside the list is in
    that case as long as no [add] has thrown ([removeNetwork_unlisted]). *)
Theorem removeNetwork_unregistered (st : registry) (arg : key) :
  registered st arg = false →
  (∀ k r, networkMaps st !! k = Some r → is_network arg r = false) →
  removeNetwork st arg = st.
Proof.
  intros Hreg Hidx. apply registry_eq.
  - apply removeNetwork_rest.
  - by apply removeNetwork_networks_unregistered.
  - by apply removeNetwork_index_unregistered.
  - apply removeNetwork_rest.
Qed.

(** So it is for a descriptor that was added and removed before. *)
Lemma removeNetwork_unregistered_witness :
  let st := after_all loaded [Add port_zero_data; Remove (KNet 2%nat)] in
  registered st (KNet 2%nat) = false ∧ removeNetwork st (KNet 2%nat) = st.
Proof.
  intros st.
  assert (Hreg : registered st (KNet 2%nat) = false) by (vm_compute; reflexivity).
  split; [exact Hreg|].
  apply removeNetwork_unregistered; [exact Hreg|].
  assert (H : map_Forall (λ (_ : string) r, is_network (KNet 2%nat) r = false)
                         (networkMaps st)).
  { eapply bool_decide_eq_true_1. vm_compute. reflexivity. }
  intros k r. apply H.
Defined.

(** C9 fails where an [add] has thrown part-way, a defect of [addNetwork]:
    it writes the index (lines 102-106) before it pushes the descriptor
    (line 108). After [add(proto_alias_data)] the second [add] throws at
    [networkMaps['name'] = network]: the key is inherited as a read-only
    property. It has indexed the descriptor under ['x'] by then and has not
    pushed it. [get('x')] hands out that descriptor, which is not in the
    list, and [remove] of it deletes the entry: the call is not a no-op. *)
Lemma removeNetwork_unlisted_changes :
  let st1 := after loaded (Add proto_alias_data) in
  let st := after st1 (Add name_alias_data) in
  (addNetwork st1 name_alias_data).1 = Throws
  ∧ networks st = networks st1
  ∧ get st (KStr "x") NoKeys = VNet 3%nat
  ∧ registered st (KNet 3%nat) = false
  ∧ networkMaps st !! "x" = Some 3%nat
  ∧ networkMaps (removeNetwork st (KNet 3%nat)) !! "x" = None
  ∧ get (removeNetwork st (KNet 3%nat)) (KStr "x") NoKeys = VUndef
  ∧ removeNetwork st (KNet 3%nat) ≠ st.
Proof.
  intros st1 st.
  assert (Hx : networkMaps st !! "x" = Some 3%nat) by (by vm_compute).
  assert (Hx' : networkMaps (removeNetwork st (KNet 3%nat)) !! "x" = None)
    by (by vm_compute).
  split_and!;
    [by vm_compute | by vm_compute | by vm_compute | by vm_compute | done | done
    | by vm_compute |].
  intros Heq. rewrite Heq in Hx'. congruence.
Qed.

(** ** Adding, then removing *)

Section RoundTrip.

Implicit Types (st : registry) (data : NetworkData) (d : ref).

Lemma read_field_new_network data :
  read_field (new_network data) "name" = str_value (data_name data)
  ∧ read_field (new_network data) "pubkeyhash" = num_value (data_pubkeyhash data)
  ∧ read_field (new_network data) "scripthash" = num_value (data_scripthash data).
Proof. done. Qed.

(** An entry that survives [add] and [remove] of the new descriptor was
    there before. *)
Lemma add_remove_entries st data k r :
  let st1 := (addNetwork st data).2 in
  networkMaps (removeNetwork st1 (KNet (length (heap st)))) !! k = Some r →
  networkMaps st !! k = Some r.
Proof.
  intros st1 Hk. apply delete_each_lookup in Hk as [Hk Hne].
  apply addNetwork_entries in Hk as [->|Hk]; [|done].
  simpl in Hne. by rewrite bool_decide_eq_true_2 in Hne.
Qed.

Lemma add_remove_absent_before st data k :
  let st1 := (addNetwork st data).2 in
  networkMaps st !! k = None →
  networkMaps (removeNetwork st1 (KNet (length (heap st)))) !! k = None.
Proof.
  intros st1 Hk.
  destruct (networkMaps (removeNetwork st1 _) !! k) as [r|] eqn:Hr; [|done].
  apply add_remove_entries in Hr. congruence.
Qed.

End RoundTrip.

(** Where the round trip holds. Take a registry that calls have produced
    since the module was loaded and whose index still has the prototype it
    was created with, and a specification whose name is not the name of a
    property of [Object.prototype] ([constructor], [toString], [__proto__]
    and the like) and whose alias is not [__proto__]; if it lacks a name or
    a pubkeyhash, let nothing be indexed under the key [undefined]. Then
    [d = add(spec)] returns, and after [remove(d)] both [get(d)] and
    [get(spec.pubkeyhash)] return [undefined]: [d] has left the ordered
    list and no entry of the reverse index leads to it. *)
Theorem add_remove_absent (cs : list call) (data : NetworkData) :
  let st := after_all loaded cs in
  networkMaps_proto st = None →
  inherited_name (property_key (str_value (data_name data))) = false →
  data_alias data ≠ Some "__proto__" →
  (data_name data = None ∨ data_pubkeyhash data = None →
   networkMaps st !! "undefined" = None) →
  ∃ d st1,
    addNetwork st data = (Returns d, st1)
    ∧ let st2 := removeNetwork st1 (KNet d) in
      get st2 (KNet d) NoKeys = VUndef
      ∧ get st2 (match data_pubkeyhash data with
                 | Some z => KNum z
                 | None => KUndef
                 end) NoKeys = VUndef
      ∧ (d ∉ networks st2)
      ∧ (∀ k, networkMaps st2 !! k ≠ Some d).
Proof.
  intros st Hproto Hname Halias Hundef.
  assert (Hname' : data_name data ≠ Some "__proto__").
  { intros Heq. rewrite Heq in Hname. by vm_compute in Hname. }
  destruct (addNetwork_returns st data Hproto Hname' Halias) as (st1 & Hadd & Hproto1).
  exists (length (heap st)), st1. split; [done|].
  set (d := length (heap st)). intros st2.
  assert (Hst1 : st1 = (addNetwork st data).2) by (by rewrite Hadd).
  assert (Hfresh : d ∉ networks st).
  { intros Hin. apply (valid_after_all cs loaded valid_loaded) in Hin.
    unfold d, st in Hin. lia. }
  assert (Hlist : networks st2 = networks st).
  { unfold st2. rewrite removeNetwork_networks.
    pose proof (addNetwork_networks st data) as Hn. rewrite Hadd in Hn. simpl in Hn.
    rewrite Hn. by apply splice_each_last. }
  assert (Hgone : ∀ k, networkMaps st2 !! k ≠ Some d).
  { intros k Hk. apply delete_each_lookup in Hk as [_ Hk].
    simpl in Hk. by rewrite bool_decide_eq_true_2 in Hk. }
  assert (Hindexed : ∀ v, v ∈ own_values (new_network data) → indexable v = true →
                          property_key v ≠ "__proto__" →
                          networkMaps st2 !! property_key v = None).
  { intros v Hin Hv Hk. apply delete_each_purged.
    by eapply addNetwork_indexed. }
  assert (Hbefore : ∀ k, networkMaps st !! k = None → networkMaps st2 !! k = None).
  { intros k Hk. unfold st2. rewrite Hst1. by apply add_remove_absent_before. }
  assert (Hproto2 : networkMaps_proto st2 = None) by done.
  pose proof (own_values_fields data) as Hfields.
  rewrite !Forall_cons in Hfields.
  destruct Hfields as (Hvname & _ & Hvpub & _).
  split_and!.
  - unfold get, registered. rewrite Hlist, bool_decide_eq_false_2 by done.
    simpl. unfold argument_key, toString.
    assert (Hcell : heap st2 !! d = Some (new_network data))
      by (change (heap st2) with (heap st1); by eapply addNetwork_instance).
    rewrite Hcell.
    destruct (read_field_new_network data) as (-> & _).
    apply maps_get_absent; [done| |done].
    destruct (data_name data) as [s|] eqn:Hs.
    + apply (Hindexed (VStr s)); [done | done | simpl; congruence].
    + apply Hbefore, Hundef. by left.
  - destruct (data_pubkeyhash data) as [z|] eqn:Hz.
    + rewrite get_number. apply maps_get_decimal.
      apply (Hindexed (VNum z)); [done | done | apply number_string_not_proto].
    + change (get st2 KUndef NoKeys) with (maps_get st2 "undefined").
      apply maps_get_absent; [done| |done].
      apply Hbefore, Hundef. by right.
  - by rewrite Hlist.
  - done.
Qed.

(** So it is for the testnet specification added anew at load time. *)
Lemma add_remove_absent_witness :
  ∃ d st1,
    addNetwork (after_all loaded []) testnet_data = (Returns d, st1)
    ∧ get (removeNetwork st1 (KNet d)) (KNet d) NoKeys = VUndef
    ∧ get (removeNetwork st1 (KNet d)) (KNum 0x1d25) NoKeys = VUndef.
Proof.
  destruct (add_remove_absent [] testnet_data) as (d & st1 & Hadd & Hd & Hp & _).
  - reflexivity.
  - reflexivity.
  - discriminate.
  - intros _. vm_compute. reflexivity.
  - exists d, st1. split; [exact Hadd|]. split; [exact Hd | exact Hp].
Defined.

(** C3 fails for a specification named like a property of
    [Object.prototype], a defect of [get]: line 47 reads [networkMaps[arg]]
    through the prototype chain of an object literal. With this
    specification, [d = add(spec)] and [remove(d)] at load time take [d] out
    of the list and leave no entry under ['constructor'], and
    [get(spec.pubkeyhash)] returns [undefined]; but [get(d)] returns the
    function that [networkMaps] inherits under the key ['constructor'], not
    [undefined], and not a network either. *)
Lemma add_remove_constructor :
  let added := addNetwork loaded constructor_data in
  let st := removeNetwork added.2 (KNet 2%nat) in
  added.1 = Returns 2%nat
  ∧ networks st = [livenet; testnet]
  ∧ networkMaps st !! "constructor" = None
  ∧ get st (KNum 31) NoKeys = VUndef
  ∧ get st (KNet 2%nat) NoKeys = VHost (ObjectMember "constructor")
  ∧ get st (KNet 2%nat) NoKeys ≠ VUndef.
Proof. split_and!; by vm_compute. Qed.

(** ** Two descriptors under one value *)

Section Collision.

Implicit Types (st : registry) (arg : key) (ks : list string) (l : list ref).

Lemma strict_eq_number v z : strict_eq v (KNum z) = true ↔ v = VNum z.
Proof.
  destruct v; simpl; try (split; [done | congruence]).
  rewrite bool_decide_eq_true. split; congruence.
Qed.

(** The scan returns the first descriptor of the list that has the
    argument under one of the keys. *)
Lemma scan_first st arg ks l r :
  r ∈ l → existsb (containsArg st arg r) ks = true →
  ∃ l1 r' l2,
    l = l1 ++ r' :: l2
    ∧ scan st arg ks l = VNet r'
    ∧ existsb (containsArg st arg r') ks = true
    ∧ ∀ x, x ∈ l1 → existsb (containsArg st arg x) ks = false.
Proof.
  induction l as [|a l IH]; intros Hin Hr; [by inversion Hin|].
  simpl. destruct (existsb (containsArg st arg a) ks) eqn:Ha.
  - exists [], a, l. split_and!; [done | done | done |]. intros x Hx. by inversion Hx.
  - apply elem_of_cons in Hin as [->|Hin]; [congruence|].
    destruct (IH Hin Hr) as (l1 & r' & l2 & -> & Hscan & Hr' & Hl1).
    exists (a :: l1), r', l2. split_and!; [done | done | done |].
    intros x Hx. apply elem_of_cons in Hx as [->|Hx]; [done | by apply Hl1].
Qed.

Lemma scan_skip st arg ks l l' :
  (∀ x, x ∈ l → existsb (containsArg st arg x) ks = false) →
  scan st arg ks (l ++ l') = scan st arg ks l'.
Proof.
  induction l as [|a l IH]; intros H; [done|]. simpl.
  rewrite (H a) by left. apply IH. intros x Hx. apply H. by right.
Qed.

Lemma scan_found st arg ks r l :
  existsb (containsArg st arg r) ks = true → scan st arg ks (r :: l) = VNet r.
Proof. simpl. by intros ->. Qed.

Lemma contains_number st z r k :
  existsb (containsArg st (KNum z) r) [k] = true ↔ read st r k = VNum z.
Proof.
  simpl. rewrite orb_false_r. apply strict_eq_number.
Qed.

Lemma get_keyed st z k :
  k ≠ "" → get st (KNum z) (OneKey k) = scan st (KNum z) [k] (networks st).
Proof.
  intros Hk. unfold get, keys_given. simpl. by rewrite decide_False.
Qed.

Lemma get_keyed_first st z k r :
  k ≠ "" → r ∈ networks st → read st r k = VNum z →
  first_with st k z (get st (KNum z) (OneKey k)).
Proof.
  intros Hk Hin Hr. rewrite get_keyed by done.
  apply contains_number in Hr.
  destruct (scan_first st (KNum z) [k] _ r Hin Hr) as (l1 & r' & l2 & Hl & Hs & Hr' & Hl1).
  exists l1, r', l2. split_and!; [done | done | by apply contains_number |].
  intros x Hx Hread. apply contains_number in Hread. rewrite (Hl1 x Hx) in Hread. done.
Qed.

End Collision.

(** C4. Let two descriptors be added one after the other, the value [z]
    being the pubkeyhash of the first and the scripthash of the second.
    Then [get(z)] returns the second, the one added last; [get(z,
    'pubkeyhash')] returns the first descriptor of the list whose
    pubkeyhash is [z], and [get(z, 'scripthash')] the first whose
    scripthash is [z]. The two descriptors are different objects, and when
    no descriptor registered earlier has the pubkeyhash [z], [get(z,
    'pubkeyhash')] returns the first of the two while [get(z)] returns the
    second. *)
Theorem get_collision (st st1 st2 : registry) (first second : NetworkData)
    (d1 d2 : ref) (z : Z) :
  addNetwork st first = (Returns d1, st1) →
  addNetwork st1 second = (Returns d2, st2) →
  data_pubkeyhash first = Some z →
  data_scripthash second = Some z →
  get st2 (KNum z) NoKeys = VNet d2
  ∧ first_with st2 "pubkeyhash" z (get st2 (KNum z) (OneKey "pubkeyhash"))
  ∧ first_with st2 "scripthash" z (get st2 (KNum z) (OneKey "scripthash"))
  ∧ d1 ≠ d2
  ∧ ((∀ r, r ∈ networks st → read st2 r "pubkeyhash" ≠ VNum z) →
     get st2 (KNum z) (OneKey "pubkeyhash") = VNet d1
     ∧ get st2 (KNum z) (OneKey "pubkeyhash") ≠ get st2 (KNum z) NoKeys).
Proof.
  intros Hadd1 Hadd2 Hpub Hscript.
  assert (Hd1 : d1 = length (heap st))
    by (apply (addNetwork_returns_fresh st first); by rewrite Hadd1).
  assert (Hd2 : d2 = length (heap st1))
    by (apply (addNetwork_returns_fresh st1 second); by rewrite Hadd2).
  pose proof (addNetwork_heap st first) as Hh1. rewrite Hadd1 in Hh1. simpl in Hh1.
  pose proof (addNetwork_heap st1 second) as Hh2. rewrite Hadd2 in Hh2. simpl in Hh2.
  pose proof (addNetwork_networks st first) as Hn1. rewrite Hadd1 in Hn1. simpl in Hn1.
  pose proof (addNetwork_networks st1 second) as Hn2. rewrite Hadd2 in Hn2. simpl in Hn2.
  assert (Hne : d1 ≠ d2).
  { rewrite Hd1, Hd2, Hh1, length_app. simpl. lia. }
  assert (Hread1 : read st2 d1 "pubkeyhash" = VNum z).
  { unfold read. rewrite Hh2, lookup_app_l.
    - rewrite (addNetwork_instance _ _ _ _ Hadd1).
      destruct (read_field_new_network first) as (_ & -> & _). by rewrite Hpub.
    - rewrite Hh1, length_app, Hd1. simpl. lia. }
  assert (Hread2 : read st2 d2 "scripthash" = VNum z).
  { unfold read. rewrite (addNetwork_instance _ _ _ _ Hadd2).
    destruct (read_field_new_network second) as (_ & _ & ->). by rewrite Hscript. }
  assert (Hlast : get st2 (KNum z) NoKeys = VNet d2).
  { rewrite get_number. apply maps_get_own.
    apply (addNetwork_indexed st1 second d2 st2 (VNum z) Hadd2); [|done|apply number_string_not_proto].
    pose proof (own_values_fields second) as Hf. rewrite !Forall_cons in Hf.
    destruct Hf as (_ & _ & _ & _ & Hs & _). by rewrite Hscript in Hs. }
  split_and!.
  - done.
  - apply (get_keyed_first st2 z "pubkeyhash" d1); [done| |done].
    rewrite Hn2, Hn1, !elem_of_app, !list_elem_of_singleton. auto.
  - apply (get_keyed_first st2 z "scripthash" d2); [done| |done].
    rewrite Hn2, !elem_of_app, !list_elem_of_singleton. auto.
  - done.
  - intros Hearlier.
    assert (Hk : get st2 (KNum z) (OneKey "pubkeyhash") = VNet d1).
    { rewrite get_keyed by done.
      rewrite Hn2, Hn1, <- app_assoc, scan_skip.
      - apply scan_found. by apply contains_number.
      - intros x Hx. apply not_true_is_false. intros Hc.
        apply contains_number in Hc. by apply (Hearlier x). }
    split; [done|]. rewrite Hk, Hlast. congruence.
Qed.

(** C4 on these two, added at load time: the index gives the second, the
    scan of [pubkeyhash] the first. *)
Lemma get_collision_witness :
  let st1 := (addNetwork loaded first_data).2 in
  let st2 := (addNetwork st1 second_data).2 in
  get st2 (KNum 77) NoKeys = VNet 3%nat
  ∧ get st2 (KNum 77) (OneKey "pubkeyhash") = VNet 2%nat
  ∧ first_with st2 "scripthash" 77 (get st2 (KNum 77) (OneKey "scripthash")).
Proof.
  intros st1 st2.
  assert (H1 : addNetwork loaded first_data = (Returns 2%nat, st1))
    by (vm_compute; reflexivity).
  assert (H2 : addNetwork st1 second_data = (Returns 3%nat, st2))
    by (vm_compute; reflexivity).
  destruct (get_collision loaded st1 st2 first_data second_data 2%nat 3%nat 77
              H1 H2 eq_refl eq_refl) as (Hlast & _ & Hscript & _ & Hfirst).
  split; [exact Hlast|]. split; [|exact Hscript].
  apply Hfirst. intros r Hr. rewrite networks_loaded in Hr.
  apply elem_of_cons in Hr as [->|Hr]; [vm_compute; discriminate|].
  apply elem_of_cons in Hr as [->|Hr]; [vm_compute; discriminate|].
  by inversion Hr.
Defined.

(** * Further properties of the registry *)

(** ** What [get] can return *)

Section GetResults.

Implicit Types (st : registry) (arg : key) (ks : list string) (l : list ref).

(** X1. Without [keys], [get] of a number returns exactly what the index
    holds under the property key of the number, the string that
    [Number::toString] gives (['8233'] for [8233], ['1e+21'] for [1e21]),
    and [undefined] if it holds nothing there: no property of a prototype
    has such a name, whatever the prototype of [networkMaps] has become. *)
Theorem get_number_index st (z : Z) :
  get st (KNum z) NoKeys
  = match networkMaps st !! property_key (VNum z) with
    | Some r => VNet r
    | None => VUndef
    end.
Proof.
  rewrite get_number. cbn [property_key].
  destruct (networkMaps st !! number_string z) as [r|] eqn:Hz.
  - by apply maps_get_own.
  - by apply maps_get_decimal.
Qed.

Lemma scan_none st arg ks l :
  scan st arg ks l = VUndef ↔ ∀ r, r ∈ l → existsb (containsArg st arg r) ks = false.
Proof.
  induction l as [|a l IH]; simpl.
  - split; [|done]. intros _ r Hr. by inversion Hr.
  - destruct (existsb (containsArg st arg a) ks) eqn:Ha.
    + split; [done|]. intros H. specialize (H a (list_elem_of_here _ _)). congruence.
    + rewrite IH. split.
      * intros H r Hr. apply elem_of_cons in Hr as [->|Hr]; [done | by apply H].
      * intros H r Hr. apply H. by right.
Qed.

Lemma get_scan st arg keys ks :
  registered st arg = false → keys_given keys = Some ks →
  get st arg keys = scan st arg ks (networks st).
Proof. unfold get. by intros -> ->. Qed.

End GetResults.

(** X2. When [keys] is given and the argument is not itself a registered
    descriptor, [get] returns the first descriptor of the list that has
    the argument under one of the keys, and it returns [undefined] exactly
    when no descriptor of the list has: the index is not consulted. *)
Theorem get_keyed_result (st : registry) (arg : key) (keys : keys_arg) (ks : list string) :
  registered st arg = false →
  keys_given keys = Some ks →
  (get st arg keys = VUndef
   ∧ ∀ r, r ∈ networks st → existsb (containsArg st arg r) ks = false)
  ∨ (∃ l1 r l2,
       networks st = l1 ++ r :: l2
       ∧ get st arg keys = VNet r
       ∧ existsb (containsArg st arg r) ks = true
       ∧ ∀ x, x ∈ l1 → existsb (containsArg st arg x) ks = false).
Proof.
  intros Hreg Hks. rewrite (get_scan st arg keys ks Hreg Hks).
  destruct (decide (Forall (λ r, existsb (containsArg st arg r) ks = false)
                           (networks st))) as [Hall|Hex].
  - left. rewrite Forall_forall in Hall. split; [by apply scan_none | done].
  - right. apply not_Forall_Exists in Hex; [|intros x; apply _].
    apply Exists_exists in Hex as (r & Hin & Hr).
    apply not_false_is_true in Hr.
    destruct (scan_first st arg ks _ r Hin Hr) as (l1 & r' & l2 & Hl & Hs & Hc & Hl1).
    by exists l1, r', l2.
Qed.

(** X2 at load time, for [get(0x1d25, 'pubkeyhash')]: the scan passes
    livenet and returns testnet. *)
Lemma get_keyed_result_witness :
  registered loaded (KNum 0x1d25) = false
  ∧ keys_given (OneKey "pubkeyhash") = Some ["pubkeyhash"]
  ∧ ((get loaded (KNum 0x1d25) (OneKey "pubkeyhash") = VUndef
      ∧ ∀ r, r ∈ networks loaded →
             existsb (containsArg loaded (KNum 0x1d25) r) ["pubkeyhash"] = false)
     ∨ (∃ l1 r l2,
          networks loaded = l1 ++ r :: l2
          ∧ get loaded (KNum 0x1d25) (OneKey "pubkeyhash") = VNet r
          ∧ existsb (containsArg loaded (KNum 0x1d25) r) ["pubkeyhash"] = true
          ∧ ∀ x, x ∈ l1 →
                 existsb (containsArg loaded (KNum 0x1d25) x) ["pubkeyhash"] = false)).
Proof.
  split; [reflexivity|]. split; [reflexivity|].
  exact (get_keyed_result loaded (KNum 0x1d25) (OneKey "pubkeyhash") ["pubkeyhash"]
           eq_refl eq_refl).
Defined.

(** ** Invariants of the registry *)

Section WellFormed.

Implicit Types (st : registry) (d r : ref) (l : list ref).

Lemma maps_put_proto k d st :
  networkMaps_proto (maps_put k d st).2 = networkMaps_proto st
  ∨ networkMaps_proto (maps_put k d st).2 = Some d.
Proof.
  unfold maps_put. destruct (networkMaps st !! k); [by left|].
  destruct (inherited_read_only st k); [by left|]. case_decide; [by right | by left].
Qed.

(** The prototype of the index changes only by becoming the descriptor
    that is being indexed. *)
Lemma index_each_proto d vs : ∀ st,
  networkMaps_proto (index_each d vs st).2 = networkMaps_proto st
  ∨ networkMaps_proto (index_each d vs st).2 = Some d.
Proof.
  induction vs as [|v vs IH]; intros st; [by left|]. simpl.
  destruct (negb (isUndefined v) && negb (isObject v)); [|apply IH].
  pose proof (maps_put_proto (property_key v) d st) as Hput.
  destruct (maps_put (property_key v) d st) as [[[]|] st1]; simpl in Hput; [|done].
  destruct (IH st1) as [->| ->]; [done | by right].
Qed.

Lemma addNetwork_proto st data :
  networkMaps_proto (addNetwork st data).2 = networkMaps_proto st
  ∨ networkMaps_proto (addNetwork st data).2 = Some (length (heap st)).
Proof.
  unfold addNetwork.
  pose proof (index_each_proto (length (heap st)) (own_values (new_network data))
                (with_heap (heap st ++ [new_network data]) st)) as Hp.
  by destruct (index_each _ _ _) as [[[]|] st2].
Qed.

Lemma is_network_true arg r : is_network arg r = true → arg = KNet r.
Proof.
  destruct arg as [| | |q]; simpl; try done.
  intros H. apply bool_decide_eq_true in H. by subst.
Qed.

(** On a list without duplicates the loop of [removeNetwork] removes the
    descriptor and keeps the others in their order. *)
Lemma splice_each_filter d l :
  NoDup l → splice_each (KNet d) l = filter (λ r, r ≠ d) l.
Proof.
  induction l as [|a|a b l IH1 IH2] using list_pair_ind; intros Hnd.
  - done.
  - simpl. rewrite filter_cons, filter_nil.
    destruct (decide (a = d)) as [->|Hne].
    + rewrite bool_decide_eq_true_2 by done. by rewrite decide_False by auto.
    + rewrite bool_decide_eq_false_2 by done. by rewrite decide_True.
  - apply NoDup_cons in Hnd as [Ha Hnd].
    change (splice_each (KNet d) (a :: b :: l))
      with (if is_network (KNet d) a then b :: splice_each (KNet d) l
            else a :: splice_each (KNet d) (b :: l)).
    simpl. destruct (decide (a = d)) as [->|Hne].
    + rewrite bool_decide_eq_true_2 by done.
      rewrite filter_cons_False by auto.
      apply not_elem_of_cons in Ha as [Hab _].
      rewrite filter_cons_True by auto. f_equal. apply IH1.
      by apply NoDup_cons in Hnd as [_ ?].
    + rewrite bool_decide_eq_false_2 by done.
      rewrite filter_cons_True by done. f_equal. by apply IH2.
Qed.

Lemma splice_each_NoDup arg l : NoDup l → NoDup (splice_each arg l).
Proof.
  intros Hnd. destruct arg as [| | |q];
    try (by rewrite splice_each_unregistered).
  rewrite splice_each_filter by done. by apply NoDup_filter.
Qed.

Lemma well_formed_after st c : well_formed st → well_formed (after st c).
Proof.
  intros (Hnd & Hlist & Hidx & Hproto).
  pose proof (valid_after st c Hlist) as Hlist'.
  split_and!; [|done| |]; destruct c as [data|arg|arg keys| |];
    cbn [after] in *; try done.
  - rewrite addNetwork_networks.
    destruct (addNetwork st data).1 as [d|] eqn:Hd; [|done].
    apply addNetwork_returns_fresh in Hd as ->.
    apply NoDup_app. split_and!; [done| |apply NoDup_singleton].
    intros x Hx Hx'. apply list_elem_of_singleton in Hx' as ->.
    apply Hlist in Hx. lia.
  - rewrite removeNetwork_networks. by apply splice_each_NoDup.
  - intros k r Hk. rewrite addNetwork_heap, length_app. simpl.
    apply addNetwork_entries in Hk as [->|Hk]; [lia|]. apply Hidx in Hk. lia.
  - intros k r Hk. apply delete_each_lookup in Hk as [Hk _]. by eapply Hidx.
  - intros k r Hk. simpl. rewrite length_alter. by eapply Hidx.
  - intros k r Hk. simpl. rewrite length_alter. by eapply Hidx.
  - intros p Hp. rewrite addNetwork_heap, length_app. simpl.
    destruct (addNetwork_proto st data) as [Heq|Heq]; rewrite Heq in Hp.
    + apply Hproto in Hp. lia.
    + injection Hp as <-. lia.
  - intros p Hp. simpl. rewrite length_alter. by apply Hproto.
  - intros p Hp. simpl. rewrite length_alter. by apply Hproto.
Qed.

Lemma well_formed_after_all cs : ∀ st, well_formed st → well_formed (after_all st cs).
Proof.
  induction cs as [|c cs IH]; intros st Hst; [done|].
  apply IH. by apply well_formed_after.
Qed.

Lemma well_formed_loaded : well_formed loaded.
Proof.
  split_and!.
  - rewrite networks_loaded. unfold livenet, testnet.
    apply NoDup_cons. split; [|apply NoDup_singleton].
    intros H. by apply list_elem_of_singleton in H.
  - apply valid_loaded.
  - assert (H : map_Forall (λ (_ : string) r, (r < length (heap loaded))%nat)
                           (networkMaps loaded)).
    { eapply bool_decide_eq_true_1. by vm_compute. }
    intros k r. apply H.
  - intros p Hp. by vm_compute in Hp.
Qed.

End WellFormed.

(** X3. In every registry that calls produce from the loaded module, the
    ordered list holds no descriptor twice, and every reference in the
    list, in the index and in the prototype slot of the index is a
    descriptor that [addNetwork] has built. *)
Theorem registry_well_formed (cs : list call) : well_formed (after_all loaded cs).
Proof. apply well_formed_after_all, well_formed_loaded. Qed.

(** X4. In such a registry [remove(d)] takes [d] out of the ordered list
    and keeps the other descriptors in their order; it deletes the entries
    of the index that lead to [d] and keeps every other entry; it changes
    neither an instance nor the prototype of the index. *)
Theorem removeNetwork_result (cs : list call) (d : ref) :
  let st := after_all loaded cs in
  networks (removeNetwork st (KNet d)) = filter (λ r, r ≠ d) (networks st)
  ∧ (∀ k r, networkMaps (removeNetwork st (KNet d)) !! k = Some r
            ↔ networkMaps st !! k = Some r ∧ r ≠ d)
  ∧ heap (removeNetwork st (KNet d)) = heap st
  ∧ networkMaps_proto (removeNetwork st (KNet d)) = networkMaps_proto st.
Proof.
  intros st. destruct (well_formed_after_all cs loaded well_formed_loaded) as (Hnd & _).
  split_and!; [|  |done|done].
  - rewrite removeNetwork_networks. by apply splice_each_filter.
  - intros k r.
    change (networkMaps (removeNetwork st (KNet d)))
      with (delete_each (KNet d) (networkMaps st)).
    rewrite delete_each_lookup. simpl. by rewrite bool_decide_eq_false.
Qed.

(** ** What [addNetwork] does to the index *)

Section AddIndex.

Implicit Types (st : registry) (data : NetworkData) (d : ref) (k : string).

Lemma elem_of_index_keys data k :
  k ∈ index_keys data
  ↔ ∃ v, v ∈ own_values (new_network data) ∧ indexable v = true ∧ property_key v = k.
Proof.
  unfold index_keys. rewrite list_elem_of_fmap. split.
  - intros (v & -> & Hv). apply list_elem_of_filter in Hv as [Hi Hv]. by exists v.
  - intros (v & Hv & Hi & <-). exists v. split; [done|]. by apply list_elem_of_filter.
Qed.

(** A key that the loop does not write keeps its entry, whether the loop
    returns or throws. *)
Lemma index_each_untouched d vs : ∀ st k,
  (∀ v, v ∈ vs → indexable v = true → property_key v ≠ k) →
  networkMaps (index_each d vs st).2 !! k = networkMaps st !! k.
Proof.
  induction vs as [|v vs IH]; intros st k Hvs; [done|]. simpl.
  destruct (negb (isUndefined v) && negb (isObject v)) eqn:Hv.
  - assert (Hk : property_key v ≠ k) by (apply Hvs; [left | done]).
    destruct (maps_put (property_key v) d st) as [c st1] eqn:Hput.
    pose proof (maps_put_spec _ _ _ _ _ Hput k) as [Heq|(Heq & _)]; [|congruence].
    destruct c as [[]|]; simpl; [|done].
    rewrite IH; [done|]. intros v' Hin. apply Hvs. by right.
  - apply IH. intros v' Hin. apply Hvs. by right.
Qed.

Lemma addNetwork_untouched st data k :
  k ∉ index_keys data →
  networkMaps (addNetwork st data).2 !! k = networkMaps st !! k.
Proof.
  intros Hk. unfold addNetwork.
  pose proof (index_each_untouched (length (heap st)) (own_values (new_network data))
                (with_heap (heap st ++ [new_network data]) st) k) as Hu.
  destruct (index_each _ _ _) as [[[]|] st2]; simpl in *; apply Hu;
    intros v Hin Hv Heq; apply Hk, elem_of_index_keys; by exists v.
Qed.

Lemma addNetwork_key st data d st' k :
  addNetwork st data = (Returns d, st') →
  k ∈ index_keys data → k ≠ "__proto__" → networkMaps st' !! k = Some d.
Proof.
  intros Hadd Hk Hne. apply elem_of_index_keys in Hk as (v & Hin & Hv & <-).
  by eapply addNetwork_indexed.
Qed.

(** The port is among the indexed values when it is given and not 0. *)
Lemma own_values_port data z :
  data_port data = Some z → z ≠ 0 → VNum z ∈ own_values (new_network data).
Proof.
  intros Hport Hz. unfold own_values, own_properties, defined_properties. simpl.
  rewrite Hport. simpl. rewrite bool_decide_eq_false_2 by done. simpl.
  destruct (if_truthy VNum (data_networkMagic data)); simpl; elem_of_literal.
Qed.

Lemma get_listed st r keys : r ∈ networks st → get st (KNet r) keys = VNet r.
Proof. intros Hr. unfold get, registered. by rewrite bool_decide_eq_true_2. Qed.

End AddIndex.

(** X5. Last write wins, key by key: when [add(spec)] has returned the
    descriptor [d], every key of the index under which the descriptor is
    indexed leads to [d], whatever it led to before, and every other key
    leads where it led before. (The key [__proto__] is never an entry.) *)
Theorem addNetwork_index (st st' : registry) (data : NetworkData) (d : ref) :
  addNetwork st data = (Returns d, st') →
  ∀ k, k ≠ "__proto__" →
       networkMaps st' !! k
       = if decide (k ∈ index_keys data) then Some d else networkMaps st !! k.
Proof.
  intros Hadd k Hne. case_decide as Hk.
  - by eapply addNetwork_key.
  - pose proof (addNetwork_untouched st data k Hk) as Hu. by rewrite Hadd in Hu.
Qed.

(** X5 for the specification of livenet added once more at load time:
    the name now leads to the new descriptor, the name of testnet where it
    led before. *)
Lemma addNetwork_index_witness :
  ∃ st', addNetwork loaded livenet_data = (Returns 2%nat, st')
         ∧ index_keys livenet_data
           = [ "livenet"; "mainnet"; "7352"; "128"; "7357"; "76067358";
               "76066276"; "5786"; "43830"; "8233" ]
         ∧ networkMaps loaded !! "livenet" = Some livenet
         ∧ networkMaps st' !! "livenet" = Some 2%nat
         ∧ networkMaps st' !! "testnet" = Some testnet.
Proof.
  exists (addNetwork loaded livenet_data).2.
  assert (Hadd : addNetwork loaded livenet_data
                 = (Returns 2%nat, (addNetwork loaded livenet_data).2))
    by (vm_compute; reflexivity).
  split; [exact Hadd|]. split; [vm_compute; reflexivity|].
  split; [vm_compute; reflexivity|]. split.
  - rewrite (addNetwork_index loaded _ livenet_data 2%nat Hadd "livenet"); [|discriminate].
    vm_compute. reflexivity.
  - rewrite (addNetwork_index loaded _ livenet_data 2%nat Hadd "testnet"); [|discriminate].
    vm_compute. reflexivity.
Defined.

(** X6. A key under which the new descriptor is not indexed keeps its
    entry even when [add] throws. *)
Theorem addNetwork_index_frame (st : registry) (data : NetworkData) (k : string) :
  k ∉ index_keys data →
  networkMaps (addNetwork st data).2 !! k = networkMaps st !! k.
Proof.
  intros Hk. unfold addNetwork.
  pose proof (index_each_untouched (length (heap st)) (own_values (new_network data))
                (with_heap (heap st ++ [new_network data]) st) k) as Hu.
  assert (Hvs : ∀ v, v ∈ own_values (new_network data) → indexable v = true →
                     property_key v ≠ k).
  { intros v Hin Hv Heq. apply Hk, elem_of_index_keys. by exists v. }
  specialize (Hu Hvs).
  by destruct (index_each _ _ _) as [[[]|] st2].
Qed.

(** X6 for the add that throws in the registry whose index has a
    descriptor as its prototype: the entry of livenet's port is untouched. *)
Lemma addNetwork_index_frame_witness :
  let st := after loaded (Add proto_alias_data) in
  ("8233" ∉ index_keys name_alias_data)
  ∧ (addNetwork st name_alias_data).1 = Throws
  ∧ networkMaps (addNetwork st name_alias_data).2 !! "8233" = networkMaps st !! "8233".
Proof.
  intros st.
  assert (Hk : "8233" ∉ index_keys name_alias_data).
  { eapply bool_decide_eq_true_1. vm_compute. reflexivity. }
  split; [exact Hk|]. split; [vm_compute; reflexivity|].
  exact (addNetwork_index_frame st name_alias_data "8233" Hk).
Defined.

(** X7. Insert, then look up: when [add(spec)] has returned the descriptor
    [d], [get(d)] returns [d] with any [keys], and without [keys] so does
    [get] of the name, of the alias (unless they are spelled [__proto__]),
    of each of the seven prefixes, and of the port if it is not 0. *)
Theorem addNetwork_get (st st' : registry) (data : NetworkData) (d : ref) :
  addNetwork st data = (Returns d, st') →
  (∀ keys, get st' (KNet d) keys = VNet d)
  ∧ (∀ s, data_name data = Some s ∨ data_alias data = Some s →
          s ≠ "__proto__" → get st' (KStr s) NoKeys = VNet d)
  ∧ (∀ z, Some z ∈ [ data_pubkeyhash data; data_privatekey data;
                      data_scripthash data; data_xpubkey data;
                      data_xprivkey data; data_zaddr data; data_zkey data ] →
          get st' (KNum z) NoKeys = VNet d)
  ∧ (∀ z, data_port data = Some z → z ≠ 0 → get st' (KNum z) NoKeys = VNet d).
Proof.
  intros Hadd.
  pose proof (own_values_fields data) as Hf. rewrite !Forall_cons in Hf.
  destruct Hf as (Hname & Halias & H1 & H2 & H3 & H4 & H5 & H6 & H7 & _).
  assert (Hnum : ∀ z, VNum z ∈ own_values (new_network data) →
                      get st' (KNum z) NoKeys = VNet d).
  { intros z Hin. rewrite get_number. apply maps_get_own.
    by apply (addNetwork_indexed st data d st' (VNum z) Hadd Hin eq_refl),
             number_string_not_proto. }
  split_and!.
  - intros keys. apply get_listed.
    pose proof (addNetwork_networks st data) as Hn. rewrite Hadd in Hn. simpl in Hn.
    rewrite Hn. apply elem_of_app. right. left.
  - intros s Hs Hne. rewrite get_string. apply maps_get_own.
    apply (addNetwork_indexed st data d st' (VStr s) Hadd); [|done|done].
    destruct Hs as [Hs|Hs]; rewrite Hs in *; done.
  - intros z Hz. apply Hnum. rewrite !elem_of_cons in Hz.
    destruct Hz as [Hz|[Hz|[Hz|[Hz|[Hz|[Hz|[Hz|Hz]]]]]]];
      [rewrite <- Hz in *; done.. | by inversion Hz].
  - intros z Hp Hz. by apply Hnum, own_values_port.
Qed.

(** X7 for the specification of livenet added to the empty registry. *)
Lemma addNetwork_get_witness :
  ∃ st', addNetwork empty_registry livenet_data = (Returns livenet, st')
         ∧ get st' (KStr "mainnet") NoKeys = VNet livenet
         ∧ get st' (KNum 0x1cb8) NoKeys = VNet livenet
         ∧ get st' (KNum 8233) NoKeys = VNet livenet.
Proof.
  exists registry_after_livenet.
  assert (Hadd : addNetwork empty_registry livenet_data
                 = (Returns livenet, registry_after_livenet))
    by (vm_compute; reflexivity).
  destruct (addNetwork_get empty_registry _ livenet_data livenet Hadd)
    as (_ & Hstr & Hnum & Hport).
  split; [exact Hadd|]. split; [|split].
  - apply Hstr; [right; reflexivity | discriminate].
  - apply Hnum. apply list_elem_of_here.
  - apply Hport; [reflexivity | discriminate].
Defined.

(** ** When [addNetwork] returns and when it throws *)

Section Outcome.

Implicit Types (st : registry) (data : NetworkData) (d : ref) (k : string).

Lemma maps_put_intact_inv k d st :
  networkMaps_proto (maps_put k d st).2 = None →
  networkMaps_proto st = None ∧ (maps_put k d st).1 = Returns ().
Proof.
  unfold maps_put. destruct (networkMaps st !! k); [by intros|].
  destruct (inherited_read_only st k) eqn:Hro; simpl.
  - intros Hp. unfold inherited_read_only in Hro. by rewrite Hp in Hro.
  - case_decide; simpl; [done | by intros].
Qed.

(** If the index has its original prototype after the loop, it had it
    before, and the loop has returned. *)
Lemma index_each_intact_inv d vs : ∀ st,
  networkMaps_proto (index_each d vs st).2 = None →
  networkMaps_proto st = None ∧ (index_each d vs st).1 = Returns ().
Proof.
  induction vs as [|v vs IH]; intros st Hp; [done|]. simpl in *.
  destruct (negb (isUndefined v) && negb (isObject v)); [|by apply IH].
  pose proof (maps_put_intact_inv (property_key v) d st) as Hput.
  destruct (maps_put (property_key v) d st) as [[[]|] st1]; simpl in *.
  - destruct (IH st1 Hp) as [Hp1 Hret]. by destruct (Hput Hp1).
  - by destruct (Hput Hp).
Qed.

Lemma addNetwork_intact_inv st data :
  networkMaps_proto (addNetwork st data).2 = None →
  networkMaps_proto st = None ∧ (addNetwork st data).1 = Returns (length (heap st)).
Proof.
  unfold addNetwork.
  pose proof (index_each_intact_inv (length (heap st)) (own_values (new_network data))
                (with_heap (heap st ++ [new_network data]) st)) as Hinv.
  destruct (index_each _ _ _) as [[[]|] st2]; simpl in *; intros Hp;
    by destruct (Hinv Hp).
Qed.

Lemma after_intact_inv st c :
  networkMaps_proto (after st c) = None → networkMaps_proto st = None ∧ returned st c.
Proof.
  destruct c as [data|arg|arg keys| |]; simpl; try done.
  intros Hp. destruct (addNetwork_intact_inv st data Hp) as [Hst Hret]. eauto.
Qed.

Lemma after_all_intact_inv cs : ∀ st,
  networkMaps_proto (after_all st cs) = None →
  networkMaps_proto st = None ∧ all_returned st cs.
Proof.
  induction cs as [|c cs IH]; intros st Hp; [done|].
  rewrite after_all_cons in Hp. destruct (IH _ Hp) as [Hp1 Hret].
  destruct (after_intact_inv st c Hp1) as [Hp0 Hc]. done.
Qed.

Lemma scan_listed st arg ks l r : scan st arg ks l = VNet r → r ∈ l.
Proof.
  induction l as [|a l IH]; simpl; [done|].
  destruct (existsb (containsArg st arg a) ks).
  - intros [= ->]. left.
  - intros H. right. by apply IH.
Qed.

End Outcome.

(** X8. In a registry that calls have produced and whose index has the
    prototype it was created with, [add(spec)] returns for every
    specification whose name and alias are not [__proto__]: it allocates
    one descriptor, which was neither in the list nor the target of an
    entry, appends it to the list, and leaves the prototype as it is. *)
Theorem addNetwork_appends (cs : list call) (data : NetworkData) :
  let st := after_all loaded cs in
  networkMaps_proto st = None →
  data_name data ≠ Some "__proto__" →
  data_alias data ≠ Some "__proto__" →
  ∃ d st',
    addNetwork st data = (Returns d, st')
    ∧ heap st' = heap st ++ [new_network data]
    ∧ heap st' !! d = Some (new_network data)
    ∧ networks st' = networks st ++ [d]
    ∧ (d ∉ networks st)
    ∧ (∀ k, networkMaps st !! k ≠ Some d)
    ∧ networkMaps_proto st' = None.
Proof.
  intros st Hp Hname Halias.
  destruct (addNetwork_returns st data Hp Hname Halias) as (st' & Hadd & Hp').
  destruct (well_formed_after_all cs loaded well_formed_loaded) as (_ & Hlist & Hidx & _).
  fold st in Hlist, Hidx.
  exists (length (heap st)), st'. split_and!.
  - done.
  - pose proof (addNetwork_heap st data) as Hh. by rewrite Hadd in Hh.
  - by eapply addNetwork_instance.
  - pose proof (addNetwork_networks st data) as Hn. by rewrite Hadd in Hn.
  - intros Hin. apply Hlist in Hin. lia.
  - intros k Hk. apply Hidx in Hk. lia.
  - done.
Qed.

(** X8 for the specification of testnet added once more at load time. *)
Lemma addNetwork_appends_witness :
  ∃ d st',
    addNetwork (after_all loaded []) testnet_data = (Returns d, st')
    ∧ networks st' = networks (after_all loaded []) ++ [d]
    ∧ (d ∉ networks (after_all loaded [])).
Proof.
  destruct (addNetwork_appends [] testnet_data) as (d & st' & Hadd & _ & _ & Hn & Hd & _).
  - reflexivity.
  - discriminate.
  - discriminate.
  - exists d, st'. split; [exact Hadd|]. split; [exact Hn | exact Hd].
Defined.

(** X9. If, after any calls, the index still has the prototype it was
    created with, then every [add] among the calls has returned, every
    entry of the index leads to a descriptor of the list, and [get], with
    or without [keys], returns no descriptor that is not in the list: a
    descriptor that was removed is never handed out again. *)
Theorem get_returns_listed (cs : list call) :
  let st := after_all loaded cs in
  networkMaps_proto st = None →
  all_returned loaded cs
  ∧ index_listed st
  ∧ ∀ arg keys r, get st arg keys = VNet r → r ∈ networks st.
Proof.
  intros st Hp.
  destruct (after_all_intact_inv cs loaded Hp) as [_ Hret].
  pose proof (index_listed_after_all cs loaded index_listed_loaded Hret) as Hidx.
  fold st in Hidx. split_and!; [done | done |].
  intros arg keys r. unfold get.
  destruct (registered st arg) eqn:Hreg.
  - destruct arg as [| | |q]; simpl in *; try done.
    intros [= ->]. by apply bool_decide_eq_true in Hreg.
  - destruct (keys_given keys) as [ks|]; [apply scan_listed|].
    unfold maps_get. destruct (networkMaps st !! argument_key st arg) as [r'|] eqn:Hk.
    + intros [= ->]. by eapply Hidx.
    + rewrite Hp. unfold object_prototype_get.
      case_decide; [done|]. by destruct (bool_decide _).
Qed.

(** X9 after [add(spec); remove(d)] at load time: the index is intact and
    the removed descriptor is not returned under its name. *)
Lemma get_returns_listed_witness :
  let st := after_all loaded [Add first_data; Remove (KNet 2%nat)] in
  networkMaps_proto st = None
  ∧ all_returned loaded [Add first_data; Remove (KNet 2%nat)]
  ∧ ∀ r, get st (KStr "first") NoKeys = VNet r → r ∈ networks st.
Proof.
  intros st.
  assert (Hp : networkMaps_proto st = None) by reflexivity.
  destruct (get_returns_listed [Add first_data; Remove (KNet 2%nat)] Hp)
    as (Hret & _ & Hget).
  split; [exact Hp|]. split; [exact Hret|].
  intros r. apply Hget.
Defined.

(** X10. Once a descriptor is the prototype of the index, [add] of a
    specification whose name is the name of a field of that descriptor
    throws at the first write, unless the name is an entry of the index
    already: the only trace of the call is the instance it has allocated;
    nothing is indexed and nothing is pushed. *)
Theorem addNetwork_throws (st : registry) (data : NetworkData) (p : ref)
    (n : Network) (k : string) (v : value) :
  networkMaps_proto st = Some p →
  heap st !! p = Some n →
  own_property n k = Some (DataProp v false) →
  data_name data = Some k →
  networkMaps st !! k = None →
  addNetwork st data = (Throws, with_heap (heap st ++ [new_network data]) st).
Proof.
  intros Hp Hn Hown Hname Hk. unfold addNetwork.
  set (st1 := with_heap (heap st ++ [new_network data]) st).
  assert (Hvs : ∃ vs, own_values (new_network data) = VStr k :: vs).
  { unfold own_values, own_properties, defined_properties. simpl.
    rewrite Hname. simpl. eauto. }
  destruct Hvs as (vs & ->).
  assert (Hput : maps_put k (length (heap st)) st1 = (Throws, st1)).
  { unfold maps_put, inherited_read_only. simpl. rewrite Hk, Hp.
    rewrite lookup_app_l by (by eapply lookup_lt_Some).
    by rewrite Hn, Hown. }
  simpl. by rewrite Hput.
Qed.

(** X10 after a descriptor with the alias [__proto__] was added: a
    specification named [pubkeyhash] makes [add] throw. *)
Lemma addNetwork_throws_witness :
  let st := after loaded (Add proto_alias_data) in
  networkMaps_proto st = Some 2%nat
  ∧ heap st !! 2%nat = Some (new_network proto_alias_data)
  ∧ addNetwork st field_name_data
    = (Throws, with_heap (heap st ++ [new_network field_name_data]) st).
Proof.
  intros st.
  assert (Hp : networkMaps_proto st = Some 2%nat) by (vm_compute; reflexivity).
  assert (Hn : heap st !! 2%nat = Some (new_network proto_alias_data))
    by (vm_compute; reflexivity).
  split; [exact Hp|]. split; [exact Hn|].
  apply (addNetwork_throws st field_name_data 2%nat (new_network proto_alias_data)
           "pubkeyhash" (VNum 11) Hp Hn).
  - reflexivity.
  - reflexivity.
  - vm_compute. reflexivity.
Defined.

(** X11. Adding and removing is not the identity on the index. In a
    registry that calls have produced, [d = add(spec)] followed by
    [remove(d)] leaves the ordered list as it was before the two calls,
    but every key under which [d] was indexed is left without an entry,
    also where it led to another descriptor before; the other keys lead
    where they led. *)
Theorem add_remove_index (cs : list call) (data : NetworkData) (d : ref) (st1 : registry) :
  let st := after_all loaded cs in
  addNetwork st data = (Returns d, st1) →
  let st2 := removeNetwork st1 (KNet d) in
  networks st2 = networks st
  ∧ ∀ k, k ≠ "__proto__" →
         networkMaps st2 !! k
         = if decide (k ∈ index_keys data) then None else networkMaps st !! k.
Proof.
  intros st Hadd st2.
  destruct (well_formed_after_all cs loaded well_formed_loaded) as (_ & Hlist & Hidx & _).
  fold st in Hlist, Hidx.
  assert (Hd : d = length (heap st))
    by (apply (addNetwork_returns_fresh st data); by rewrite Hadd).
  split.
  - unfold st2. rewrite removeNetwork_networks.
    pose proof (addNetwork_networks st data) as Hn. rewrite Hadd in Hn. simpl in Hn.
    rewrite Hn. apply splice_each_last. intros Hin. apply Hlist in Hin. lia.
  - intros k Hne.
    change (networkMaps st2) with (delete_each (KNet d) (networkMaps st1)).
    case_decide as Hk.
    + apply delete_each_purged. by eapply addNetwork_key.
    + pose proof (addNetwork_untouched st data k Hk) as Hu. rewrite Hadd in Hu.
      simpl in Hu. destruct (networkMaps st !! k) as [r|] eqn:Hr.
      * apply delete_each_lookup. split; [done|]. simpl.
        apply bool_decide_eq_false. apply Hidx in Hr. lia.
      * destruct (delete_each (KNet d) (networkMaps st1) !! k) as [r|] eqn:Hr'; [|done].
        apply delete_each_lookup in Hr' as [Hr' _]. congruence.
Qed.

(** X11 for the specification of livenet added once more at load time and
    removed: livenet is in the list, and its name finds nothing. *)
Lemma add_remove_index_witness :
  ∃ st1, addNetwork (after_all loaded []) livenet_data = (Returns 2%nat, st1)
         ∧ networks (removeNetwork st1 (KNet 2%nat)) = [livenet; testnet]
         ∧ networkMaps loaded !! "livenet" = Some livenet
         ∧ networkMaps (removeNetwork st1 (KNet 2%nat)) !! "livenet" = None.
Proof.
  exists (addNetwork loaded livenet_data).2.
  assert (Hadd : addNetwork (after_all loaded []) livenet_data
                 = (Returns 2%nat, (addNetwork loaded livenet_data).2))
    by (vm_compute; reflexivity).
  destruct (add_remove_index [] livenet_data 2%nat _ Hadd) as [Hn Hk].
  split; [exact Hadd|]. split; [rewrite Hn; apply networks_loaded|].
  split; [vm_compute; reflexivity|].
  rewrite (Hk "livenet"); [|discriminate]. vm_compute. reflexivity.
Defined.

(** ** The toggle *)

Section ToggleCalls.

Implicit Types (st : registry) (b : bool) (arg : key).

Lemma toString_toggle st b r : toString (after st (toggle b)) r = toString st r.
Proof.
  assert (H : ∀ v, (match alter (set_regtestEnabled v) testnet (heap st) !! r with
                    | Some n => read_field n "name"
                    | None => VUndef
                    end) = toString st r).
  { intros v. unfold toString. rewrite list_lookup_alter.
    case_decide as Hr; [subst r|done].
    destruct (heap st !! testnet) as [n|]; [|done]. simpl.
    apply read_field_with_regtestEnabled; [done|]. right.
    intros Hin. rewrite !elem_of_cons in Hin.
    destruct Hin as [Hin|[Hin|[Hin|Hin]]]; [done.. | by inversion Hin]. }
  destruct b; apply H.
Qed.

End ToggleCalls.

(** X12. Of two calls of [enableRegtest] or [disableRegtest] in a row the
    second decides: the registry after both is the registry after the
    second alone. *)
Theorem toggle_last_wins (st : registry) (b b' : bool) :
  after (after st (toggle b)) (toggle b') = after st (toggle b').
Proof.
  destruct b, b'; apply registry_eq; try done; simpl;
    rewrite list_alter_alter_eq; by apply list_alter_ext.
Qed.

(** X13. While the index has the prototype it was created with, a call of
    [enableRegtest] or [disableRegtest] changes nothing in what [get]
    returns without [keys], for any argument: the index does not follow
    the mode. *)
Theorem get_toggle (st : registry) (b : bool) (arg : key) :
  networkMaps_proto st = None →
  get (after st (toggle b)) arg NoKeys = get st arg NoKeys.
Proof.
  intros Hp.
  assert (Hn : networks (after st (toggle b)) = networks st) by (by destruct b).
  assert (Hm : networkMaps (after st (toggle b)) = networkMaps st) by (by destruct b).
  assert (Hp' : networkMaps_proto (after st (toggle b)) = None) by (by destruct b).
  assert (Hkey : argument_key (after st (toggle b)) arg = argument_key st arg).
  { destruct arg as [| | |r]; try done. simpl. by rewrite toString_toggle. }
  unfold get, registered. rewrite Hn.
  destruct arg as [| | |r]; simpl keys_given; cbv iota;
    try (destruct (bool_decide (r ∈ networks st)); [done|]);
    unfold maps_get; by rewrite Hkey, Hm, Hp, Hp'.
Qed.

(** X13 for [get('regtest')] at load time and after [enableRegtest()]. *)
Lemma get_toggle_witness :
  networkMaps_proto loaded = None
  ∧ get (after loaded (toggle true)) (KStr "regtest") NoKeys
    = get loaded (KStr "regtest") NoKeys.
Proof.
  split; [reflexivity|]. apply get_toggle. reflexivity.
Defined.

(** ** Lookups by field name *)

Section Keyed.

Implicit Types (st : registry) (n : Network) (cs : list call).

Lemma magic_buffer_after st c :
  Forall magic_buffer (heap st) → Forall magic_buffer (heap (after st c)).
Proof.
  intros Hst. destruct c as [data|arg|arg keys| |]; simpl; try done.
  - rewrite addNetwork_heap. apply Forall_app. split; [done|].
    apply Forall_singleton. unfold magic_buffer, new_network. simpl.
    by destruct (if_truthy VNum (data_networkMagic data)).
  - by apply Forall_alter.
  - by apply Forall_alter.
Qed.

Lemma magic_buffer_after_all cs : ∀ st,
  Forall magic_buffer (heap st) → Forall magic_buffer (heap (after_all st cs)).
Proof.
  induction cs as [|c cs IH]; intros st Hst; [done|].
  apply IH. by apply magic_buffer_after.
Qed.

Lemma magic_buffer_loaded : Forall magic_buffer (heap loaded).
Proof.
  change (heap loaded) with
    [new_network livenet_data; define_accessors (new_network testnet_data)].
  by repeat constructor.
Qed.

(** The field [networkMagic] reads as a buffer or as [undefined], never as
    a number. *)
Lemma read_field_magic n (z : Z) :
  magic_buffer n → strict_eq (read_field n "networkMagic") (KNum z) = false.
Proof.
  unfold magic_buffer, read_field, own_property, own_properties, defined_properties.
  destruct n as [? ? ? ? ? ? ? ? ? magic p seeds acc flag]. simpl.
  destruct magic as [[]|]; try done;
    destruct p, seeds, acc, flag; simpl; try done;
    unfold run_getter; by destruct (regtest_mode _).
Qed.

Lemma livenet_after_toggles (bs : list bool) :
  heap (after_all loaded (toggle <$> bs)) !! livenet = Some (new_network livenet_data).
Proof.
  assert (H0 : heap loaded !! livenet = Some (new_network livenet_data)) by done.
  destruct (after_all_frame (toggle <$> bs) loaded livenet _ H0) as (o & Ho & Hne).
  rewrite Ho, Hne by done. by rewrite with_regtestEnabled_same.
Qed.

End Keyed.

(** X14. Looked up by the field [port], testnet follows the mode, unlike
    in the index: after any calls of [enableRegtest] and [disableRegtest],
    [get(18444, 'port')] returns testnet while [regtestEnabled] is truthy
    and [undefined] otherwise, [get(18233, 'port')] the other way round,
    and [get(8233, 'port')] returns livenet. *)
Theorem get_port_keyed (toggles : list bool) :
  let st := after_all loaded (toggle <$> toggles) in
  let regtest := truthy (read st testnet "regtestEnabled") in
  get st (KNum 18444) (OneKey "port") = (if regtest then VNet testnet else VUndef)
  ∧ get st (KNum 18233) (OneKey "port") = (if regtest then VUndef else VNet testnet)
  ∧ get st (KNum 8233) (OneKey "port") = VNet livenet.
Proof.
  intros st regtest.
  destruct (toggles_index toggles loaded) as (Hn & _). fold st in Hn.
  rewrite networks_loaded in Hn.
  pose proof (livenet_after_toggles toggles) as Hl. fold st in Hl.
  destruct (testnet_after_all (toggle <$> toggles)) as (o & Ho). fold st in Ho.
  assert (Hlp : read st livenet "port" = VNum 8233) by (unfold read; by rewrite Hl).
  assert (Htp : read st testnet "port" = PORT (if regtest then REGTEST else TESTNET)).
  { unfold regtest, read. rewrite Ho. by destruct o. }
  rewrite !get_keyed, Hn by done.
  unfold scan, existsb, containsArg. rewrite Hlp, Htp.
  by destruct regtest.
Qed.

(** X15. No descriptor is found by its magic number under the field
    [networkMagic]: the field holds a buffer, which is never identical to
    a number. After any calls, [get(z, 'networkMagic')] returns
    [undefined] for every number [z]. *)
Theorem get_magic_keyed (cs : list call) (z : Z) :
  get (after_all loaded cs) (KNum z) (OneKey "networkMagic") = VUndef.
Proof.
  rewrite get_keyed by done. apply scan_none. intros r _.
  simpl. rewrite orb_false_r. unfold containsArg, read.
  destruct (heap (after_all loaded cs) !! r) as [n|] eqn:Hr; [|done].
  apply read_field_magic.
  pose proof (magic_buffer_after_all cs loaded magic_buffer_loaded) as HF.
  rewrite Forall_lookup in HF. by eapply HF.
Qed.

(** ** Edge cases of [get] and of the loop of [removeNetwork] *)

Section Edges.

Implicit Types (st : registry) (n : Network) (k : string).

Lemma network_prototype_get_absent v k :
  inherited_name k = false → network_prototype_get v k = VUndef.
Proof.
  unfold inherited_name, network_prototype_get, object_prototype_get.
  intros Hk. apply bool_decide_eq_false in Hk.
  apply not_elem_of_cons in Hk as [Hproto Hk].
  assert (k ≠ "toString") by (intros ->; apply Hk; elem_of_literal).
  assert (k ≠ "constructor") by (intros ->; apply Hk; elem_of_literal).
  rewrite !decide_False by done. by rewrite bool_decide_eq_false_2.
Qed.

(** A name that is neither a field nor inherited reads as [undefined] on
    every instance. *)
Lemma read_absent st r k :
  k ∉ network_property_names → inherited_name k = false → read st r k = VUndef.
Proof.
  intros Hown Hinh. unfold read.
  destruct (heap st !! r) as [n|]; [|by apply network_prototype_get_absent].
  unfold read_field. destruct (own_property n k) as [p|] eqn:Hp.
  - by apply own_property_name in Hp.
  - by apply network_prototype_get_absent.
Qed.

End Edges.

(** X16. An empty array of keys finds nothing: for an argument that is
    not itself a registered descriptor, [get(arg, [])] returns [undefined]
    whatever the index holds under the argument. An empty string as
    [keys] is falsy and counts as no [keys]. *)
Theorem get_empty_keys (st : registry) (arg : key) :
  get st arg (OneKey "") = get st arg NoKeys
  ∧ (registered st arg = false → get st arg (ManyKeys []) = VUndef).
Proof.
  split; [done|]. intros Hreg.
  rewrite (get_scan st arg (ManyKeys []) [] Hreg eq_refl).
  by apply scan_none.
Qed.

(** X16 at load time: the name of livenet is in the index, and
    [get('livenet', [])] returns [undefined]. *)
Lemma get_empty_keys_witness :
  registered loaded (KStr "livenet") = false
  ∧ get loaded (KStr "livenet") NoKeys = VNet livenet
  ∧ get loaded (KStr "livenet") (ManyKeys []) = VUndef.
Proof.
  split; [reflexivity|]. split; [vm_compute; reflexivity|].
  apply (proj2 (get_empty_keys loaded (KStr "livenet"))). reflexivity.
Defined.

(** X17. A missing argument matches a missing field: with a key that no
    descriptor has as a field and that is not inherited either, every
    descriptor reads [undefined] there, so [get(undefined, key)] returns
    the first descriptor of the list (and [undefined] only when the list
    is empty). *)
Theorem get_undefined_keyed (st : registry) (k : string) :
  k ≠ "" → k ∉ network_property_names → inherited_name k = false →
  get st KUndef (OneKey k)
  = match networks st with
    | [] => VUndef
    | r :: _ => VNet r
    end.
Proof.
  intros Hk Hown Hinh. unfold get, keys_given. simpl.
  rewrite decide_False by done.
  destruct (networks st) as [|r l]; [done|]. simpl.
  unfold containsArg. by rewrite (read_absent st r k Hown Hinh).
Qed.

(** X17 at load time, for a key that is no field: livenet is returned. *)
Lemma get_undefined_keyed_witness :
  "nonexistent" ≠ ""
  ∧ ("nonexistent" ∉ network_property_names)
  ∧ inherited_name "nonexistent" = false
  ∧ get loaded KUndef (OneKey "nonexistent") = VNet livenet.
Proof.
  assert (H1 : "nonexistent" ≠ "") by discriminate.
  assert (H2 : "nonexistent" ∉ network_property_names).
  { eapply bool_decide_eq_true_1. vm_compute. reflexivity. }
  assert (H3 : inherited_name "nonexistent" = false) by (vm_compute; reflexivity).
  split; [exact H1|]. split; [exact H2|]. split; [exact H3|].
  rewrite (get_undefined_keyed loaded "nonexistent" H1 H2 H3).
  rewrite networks_loaded. reflexivity.
Defined.

(** X18. The loop of [removeNetwork] reaches the end of the list: run with
    more rounds than the list is long, the loop of lines 121-125 comes to
    the test [i < networks.length] failing, and the list it has left then
    is the one that [removeNetwork] stores. *)
Theorem splice_run_ends (arg : key) (l : list ref) (fuel : nat) :
  (length l < fuel)%nat →
  splice_run fuel arg 0 l = Some (splice_loop (length l) arg 0 l).
Proof.
  intros Hfuel. rewrite splice_run_from by lia.
  by rewrite splice_loop_from by lia.
Qed.

(** X18 for the list of the loaded module and the descriptor livenet:
    three rounds reach the end, and two do not when nothing is removed. *)
Lemma splice_run_ends_witness :
  (length (networks loaded) < 3)%nat
  ∧ splice_run 3 (KNet livenet) 0 (networks loaded) = Some [testnet]
  ∧ networks (removeNetwork loaded (KNet livenet)) = [testnet]
  ∧ splice_run 2 KUndef 0 (networks loaded) = None.
Proof.
  assert (H : (length (networks loaded) < 3)%nat) by (rewrite networks_loaded; simpl; lia).
  split; [exact H|].
  rewrite (splice_run_ends (KNet livenet) (networks loaded) 3 H).
  rewrite networks_loaded. split_and!; reflexivity.
Defined.
